(** * Cumulus record access layer: a shallow embedding

    The development follows three pieces of the repository:

    - [Pg]: the generic Postgres model, class [BasePgModel] of
      [packages/db/src/types.ts] ([get], [exists], [search],
      [searchWithUpdatedAtRange], [delete]);
    - [Granules]: the DynamoDB granule model, class [Granule] of
      [packages/db/tests/models/test-execution-model.js] ([delete],
      [_getMutableFieldNames], [_storeGranuleRecord]), run against a model
      of the document client ([Dynamo]);
    - [QuerySearch]: the paging client that the [QuerySearchClient] tests of
      the same file exercise;
    - [GranuleSearch] and [GranuleServices]: the search parameters of the
      granule model ([getDynamoDbSearchParams], [granuleAttributeScan]) and
      its calls to external services ([_removeGranuleFromCmr],
      [describeGranuleExecution]);
    - [Pdr]: the PDR parser of the same file ([getItem], [parseSpec],
      [extractGranuleId], [granuleFromFileGroup], [parsePdr]).

    Asynchronous methods are functions in a state-and-error monad: a promise
    that rejects is a computation that returns an [Error]. *)

From Stdlib Require Import ZArith String List Lia DecimalString.
From stdpp Require Import base option gmap strings list fin_maps.

Local Open Scope string_scope.

(** ** JavaScript values, objects and errors *)

(** The scalar values that occur in records.  [undefined] is the absence of a
    property: an object is a finite map from property names to values. *)
Inductive Value : Type :=
| VStr (s : string)
| VNum (n : Z)
| VBool (b : bool)
| VDate (ms : Z).

#[global] Instance Value_eq_dec : EqDecision Value.
Proof. solve_decision. Defined.

Abbreviation Obj := (gmap string Value).

(** JavaScript truthiness of a property read ([if (granule.published)]). *)
Definition truthy (v : option Value) : bool :=
  match v with
  | None => false
  | Some (VBool b) => b
  | Some (VNum n) => negb (n =? 0)%Z
  | Some (VStr s) => negb (String.eqb s "")
  | Some (VDate _) => true
  end.

(** [x !== undefined]; a [Date] object, when present, is truthy as well. *)
Definition defined {A} (x : option A) : bool :=
  match x with Some _ => true | None => false end.

(** [Object.keys(record)]. *)
Definition Object_keys (record : Obj) : list string := (map_to_list record).*1.

(** Errors that can be thrown.  The two classes of [@cumulus/errors] used by
    the code are kept apart from every other thrown value, of which only the
    [name] and the [message] are observed. *)
Inductive Error : Type :=
| RecordDoesNotExist (tableName : string) (identifiers : Obj)
| DeletePublishedGranule (message : string)
| Thrown (name : option string) (message : string).

#[global] Instance Error_eq_dec : EqDecision Error.
Proof. solve_decision. Defined.

(** [error.name] *)
Definition error_name (e : Error) : option string :=
  match e with
  | RecordDoesNotExist _ _ => Some "RecordDoesNotExist"
  | DeletePublishedGranule _ => Some "DeletePublishedGranule"
  | Thrown n _ => n
  end.

(** [error instanceof RecordDoesNotExist] *)
Definition instanceof_RecordDoesNotExist (e : Error) : bool :=
  match e with
  | RecordDoesNotExist _ _ => true
  | _ => false
  end.

(** [haystack.includes(needle)] *)
Definition includes (haystack needle : string) : bool :=
  match String.index 0 needle haystack with
  | Some _ => true
  | None => false
  end.

(** [s.endsWith(suffix)] *)
Definition endsWith (s suffix : string) : bool :=
  let n := String.length s in
  let m := String.length suffix in
  (m <=? n)%nat && String.eqb (substring (n - m) m s) suffix.

(** [s.split(separator).shift()] for a non-empty separator: the part of [s]
    before the first occurrence of the separator, all of [s] when there is
    none. *)
Definition split_shift (s separator : string) : string :=
  match String.index 0 separator s with
  | Some n => substring 0 n s
  | None => s
  end.

(** An array index inside a template literal. *)
Definition index_string (index : nat) : string :=
  NilEmpty.string_of_uint (Nat.to_uint index).

(** [strings.join(separator)] *)
Definition join (separator : string) (strings : list string) : string :=
  String.concat separator strings.

(** Truthiness of a string that may be [undefined]. *)
Definition truthy_string (s : option string) : bool :=
  match s with
  | Some s => negb (String.eqb s "")
  | None => false
  end.

(** ** Asynchronous computations over a store *)

(** An [async] function over a store of type [S]: it takes the store, leaves
    a store, and either resolves with a value or rejects with an error. *)
Definition Async (S A : Type) : Type := S → S * (Error + A).

Definition resolve {S A} (a : A) : Async S A := λ s, (s, inr a).
Definition reject {S A} (e : Error) : Async S A := λ s, (s, inl e).

(** [await m] followed by the rest of the function. *)
Definition await {S A B} (m : Async S A) (k : A → Async S B) : Async S B :=
  λ s, match m s with
       | (s', inr a) => k a s'
       | (s', inl e) => (s', inl e)
       end.

(** [try { body } catch (error) { handler }] *)
Definition try_catch {S A} (body : Async S A) (handler : Error → Async S A)
  : Async S A :=
  λ s, match body s with
       | (s', inr a) => (s', inr a)
       | (s', inl e) => handler e s'
       end.

Notation "'let!' x ':=' m 'in' k" := (await m (λ x, k))
  (at level 10, x name, m at level 100, k at level 200, only parsing).

(** ** The generic Postgres model *)

Module Pg.

Abbreviation Row := (gmap string Value).
Abbreviation tableNames := string.

(** The database: for each table its rows, in the order the store returns
    them. *)
Abbreviation Db := (gmap string (list Row)).

(** The clauses that the models add to a query builder. *)
Inductive Clause : Type :=
| where_ (params : Row)
| whereBetween (column : string) (range : Z * Z).

(** [where(params)] is an exact match on each given column. *)
Definition matches (params row : Row) : bool :=
  bool_decide (map_Forall (λ column v, row !! column = Some v) params).

(** [whereBetween] is SQL's inclusive BETWEEN. *)
Definition between (column : string) (range : Z * Z) (row : Row) : bool :=
  match row !! column with
  | Some (VDate t) => (range.1 <=? t)%Z && (t <=? range.2)%Z
  | _ => false
  end.

Definition holds (row : Row) (c : Clause) : bool :=
  match c with
  | where_ params => matches params row
  | whereBetween column range => between column range row
  end.

(** The handle [knexOrTransaction]: what awaiting a query on a table
    produces.  A handle may reject (connectivity, constraint violations). *)
Record Knex : Type := {
  knex_select : tableNames → list Clause → Async Db (list Row);
  knex_del : tableNames → list Clause → Async Db nat;
}.

Definition table_rows (db : Db) (t : tableNames) : list Row :=
  default [] (db !! t).

(** A handle on a healthy database: clauses are combined with AND. *)
Definition postgres : Knex := {|
  knex_select t clauses db :=
    (db, inr (List.filter (λ row, forallb (holds row) clauses) (table_rows db t)));
  knex_del t clauses db :=
    let gone := List.filter (λ row, forallb (holds row) clauses) (table_rows db t) in
    let kept := List.filter (λ row, negb (forallb (holds row) clauses)) (table_rows db t) in
    (<[t := kept]> db, inr (length gone));
|}.

(** A handle whose every query rejects with [e]. *)
Definition broken (e : Error) : Knex := {|
  knex_select _ _ := reject e;
  knex_del _ _ := reject e;
|}.

(** [UpdatedAtRange] of [../types/record]: both bounds are optional. *)
Record UpdatedAtRange : Type := {
  updatedAtFrom : option Z;
  updatedAtTo : option Z;
}.

(** Modelled from the spec: [isRecordDefined] of [../database] is not among
    the sources; [get] fails with NotFound when zero rows match, so a record
    is defined when [first()] produced a row. *)
Definition isRecordDefined (record : option Row) : bool :=
  match record with Some _ => true | None => false end.

Section BasePgModel.

Variable tableName : tableNames.

(** [now] is the value of [new Date()] when the method runs. *)
Definition searchWithUpdatedAtRange (knexOrTransaction : Knex)
    (params : Row) (updatedAtParams : UpdatedAtRange) (now : Z)
  : Async Db (list Row) :=
  let! records := knex_select knexOrTransaction tableName
    (where_ params ::
     if defined (updatedAtFrom updatedAtParams)
        || defined (updatedAtTo updatedAtParams)
     then [whereBetween "updated_at"
             (default 0%Z (updatedAtFrom updatedAtParams),
              default now (updatedAtTo updatedAtParams))]
     else [])
  in resolve records.

Definition get (knexOrTransaction : Knex) (params : Row) : Async Db Row :=
  let! rows := knex_select knexOrTransaction tableName [where_ params] in
  let record := head rows in
  if negb (isRecordDefined record)
  then reject (RecordDoesNotExist tableName params)
  else match record with
       | Some r => resolve r
       | None => reject (RecordDoesNotExist tableName params)
       end.

Definition search (knexOrTransaction : Knex) (params : Row)
  : Async Db (list Row) :=
  let! records := knex_select knexOrTransaction tableName [where_ params] in
  resolve records.

Definition exists_ (knexOrTransaction : Knex) (params : Row)
  : Async Db bool :=
  try_catch
    (let! record := get knexOrTransaction params in resolve true)
    (λ error,
       if instanceof_RecordDoesNotExist error then resolve false
       else reject error).

(** [select('cumulus_id')] keeps that column of a row. *)
Definition select_columns (columns : list string) (row : Row) : Row :=
  filter (λ column_value, column_value.1 ∈ columns) row.

(** The [cumulus_id] returned is [undefined] when the row has no such
    column. *)
Definition getRecordCumulusId (knexOrTransaction : Knex) (whereClause : Row)
  : Async Db (option Value) :=
  let! rows := knex_select knexOrTransaction tableName [where_ whereClause] in
  let record := head (select_columns ["cumulus_id"] <$> rows) in
  if negb (isRecordDefined record)
  then reject (RecordDoesNotExist tableName whereClause)
  else resolve (record ≫= (.!! "cumulus_id")).

Definition delete (knexOrTransaction : Knex) (params : Row)
  : Async Db nat :=
  knex_del knexOrTransaction tableName [where_ params].

End BasePgModel.

End Pg.

(** ** The DynamoDB document client *)

(** The granule model talks to its table through [dynamodbDocClient].  The
    client is an external service; this module fixes the part of its
    expression language that the model uses, and a reference semantics for a
    table with the hash key [granuleId]. *)
Module Dynamo.

Abbreviation Item := (gmap string Value).
Abbreviation Table := (gmap string Item).

(** Operands: an attribute written out ([createdAt]), a name placeholder
    ([#createdAt]) or a value placeholder ([:createdAt]). *)
Inductive Operand : Type :=
| attr (attribute : string)
| name_ref (placeholder : string)
| value_ref (placeholder : string).

(** The condition expressions built by the granule model. *)
Inductive Condition : Type :=
| attribute_not_exists (p : Operand)
| cond_ge (a b : Operand)            (* a >= b *)
| cond_ne (a b : Operand)            (* a <> b *)
| cond_or (c d : Condition)
| cond_and (c d : Condition).

(** The two SET actions of an update expression:
    [#f = :f] and [#f = if_not_exists(#f, :f)]. *)
Inductive SetAction : Type :=
| set_value (name value : string)
| set_if_not_exists (name value : string).

Record UpdateParams : Type := {
  Key : Item;
  ExpressionAttributeNames : gmap string string;
  ExpressionAttributeValues : gmap string Value;
  UpdateExpression : list SetAction;
  ConditionExpression : option Condition;
}.

Definition with_ConditionExpression (p : UpdateParams) (c : Condition)
  : UpdateParams :=
  {| Key := Key p;
     ExpressionAttributeNames := ExpressionAttributeNames p;
     ExpressionAttributeValues := ExpressionAttributeValues p;
     UpdateExpression := UpdateExpression p;
     ConditionExpression := Some c |}.

(** What the service answers to a successful write (no [ReturnValues] is
    requested, so no attributes come back). *)
Record WriteOutput : Type := { Attributes : option Item }.

Definition ValidationException : Error :=
  Thrown (Some "ValidationException") "Invalid expression or key".
Definition ConditionalCheckFailedException : Error :=
  Thrown (Some "ConditionalCheckFailedException") "The conditional request failed".

(** The value of an operand on the stored item: [None] when a placeholder
    is not declared (the request is invalid), [Some None] when the
    attribute is absent from the item. *)
Definition operand_value (p : UpdateParams) (item : Item) (o : Operand)
  : option (option Value) :=
  match o with
  | attr a => Some (item !! a)
  | name_ref n =>
      match ExpressionAttributeNames p !! n with
      | Some a => Some (item !! a)
      | None => None
      end
  | value_ref v =>
      match ExpressionAttributeValues p !! v with
      | Some x => Some (Some x)
      | None => None
      end
  end.

(** Ordering is defined between two numbers or two strings. *)
Definition value_ge (a b : Value) : bool :=
  match a, b with
  | VNum x, VNum y => (y <=? x)%Z
  | VStr x, VStr y => String.leb y x
  | _, _ => false
  end.

(** [a >= b]: false when an operand is absent. *)
Definition compare_ge (a b : option Value) : bool :=
  match a, b with
  | Some x, Some y => value_ge x y
  | _, _ => false
  end.

(** [a <> b]: an absent attribute differs from every value. *)
Definition compare_ne (a b : option Value) : bool :=
  negb (bool_decide (a = b)).

(** A condition on the stored item; [None] when the request is invalid.
    Both sides of [or] and [and] are validated. *)
Fixpoint eval_condition (p : UpdateParams) (item : Item) (c : Condition)
  : option bool :=
  match c with
  | attribute_not_exists o =>
      match operand_value p item o with
      | Some v => Some (negb (defined v))
      | None => None
      end
  | cond_ge a b =>
      match operand_value p item a, operand_value p item b with
      | Some x, Some y => Some (compare_ge x y)
      | _, _ => None
      end
  | cond_ne a b =>
      match operand_value p item a, operand_value p item b with
      | Some x, Some y => Some (compare_ne x y)
      | _, _ => None
      end
  | cond_or c d =>
      match eval_condition p item c, eval_condition p item d with
      | Some x, Some y => Some (x || y)
      | _, _ => None
      end
  | cond_and c d =>
      match eval_condition p item c, eval_condition p item d with
      | Some x, Some y => Some (x && y)
      | _, _ => None
      end
  end.

(** One SET action: [old] is the item before the request ([if_not_exists]
    looks at it), [acc] the item being built. *)
Definition apply_action (p : UpdateParams) (old : Item)
    (acc : option Item) (a : SetAction) : option Item :=
  match acc with
  | None => None
  | Some new =>
      match a with
      | set_value n v =>
          match ExpressionAttributeNames p !! n,
                ExpressionAttributeValues p !! v with
          | Some f, Some x => Some (<[f := x]> new)
          | _, _ => None
          end
      | set_if_not_exists n v =>
          match ExpressionAttributeNames p !! n,
                ExpressionAttributeValues p !! v with
          | Some f, Some x =>
              Some (if defined (old !! f) then new else <[f := x]> new)
          | _, _ => None
          end
      end
  end.

Definition apply_update (p : UpdateParams) (old : Item) : option Item :=
  foldl (apply_action p old) (Some (Key p ∪ old)) (UpdateExpression p).

(** [update(params).promise()] on a table whose hash key is [granuleId]:
    the request is validated, then the condition is checked against the
    stored item (an absent item has no attribute), then the SET actions are
    applied; an item that did not exist is created with its key. *)
Definition table_update (p : UpdateParams) : Async Table WriteOutput :=
  λ table,
    match Key p !! "granuleId" with
    | Some (VStr k) =>
        let old := default ∅ (table !! k) in
        match match ConditionExpression p with
              | Some c => eval_condition p old c
              | None => Some true
              end,
              apply_update p old with
        | Some true, Some new => (<[k := new]> table, inr {| Attributes := None |})
        | Some false, Some _ => (table, inl ConditionalCheckFailedException)
        | _, _ => (table, inl ValidationException)
        end
    | _ => (table, inl ValidationException)
    end.

(** [delete({ Key }).promise()]: deleting an absent item is not an error. *)
Definition table_delete (key : Item) : Async Table WriteOutput :=
  λ table,
    match key !! "granuleId" with
    | Some (VStr k) => (delete k table, inr {| Attributes := None |})
    | _ => (table, inl ValidationException)
    end.

(** The client as the model sees it, over any store [S]. *)
Record DocumentClient (S : Type) : Type := {
  update : UpdateParams → Async S WriteOutput;
  delete : Item → Async S WriteOutput;
}.
Arguments update {S}.
Arguments delete {S}.

(** The client of a healthy table. *)
Definition dynamodb : DocumentClient Table :=
  {| update := table_update; delete := table_delete |}.

(** A client whose every request is rejected with [e] (throttling, a lost
    connection). *)
Definition failing {S : Type} (e : Error) : DocumentClient S :=
  {| update _ := reject e; delete _ := reject e |}.

End Dynamo.

(** ** The granule model *)

Module Granules.

Import Dynamo.

(** The object literal [{ granuleId: record.granuleId }]. *)
Definition granuleId_key (record : Item) : Item :=
  match record !! "granuleId" with
  | Some v => {[ "granuleId" := v ]}
  | None => ∅
  end.

(** Modelled from the spec: [_buildDocClientUpdateParams] belongs to the
    base class [Manager] ([./base]), which is not among the sources.  An
    upsert inserts a record that does not exist yet, and on an existing
    record it retains the persisted fields except those of the allow-list,
    which are applied: every field of the item outside the key is written,
    a mutable one with [#f = :f], any other with
    [#f = if_not_exists(#f, :f)]. *)
Definition _buildDocClientUpdateParams (item itemKey : Item)
    (mutableFieldNames : list string) : UpdateParams :=
  let fields := item ∖ itemKey in
  {| Key := itemKey;
     ExpressionAttributeNames :=
       kmap (String.append "#") (map_imap (λ fieldName _, Some fieldName) fields);
     ExpressionAttributeValues := kmap (String.append ":") fields;
     UpdateExpression :=
       (λ fieldName,
          if bool_decide (fieldName ∈ mutableFieldNames)
          then set_value ("#" +:+ fieldName) (":" +:+ fieldName)
          else set_if_not_exists ("#" +:+ fieldName) (":" +:+ fieldName))
       <$> Object_keys fields;
     ConditionExpression := None |}.

Section Granule.

Context {S : Type}.
Variable dynamodbDocClient : DocumentClient S.

(** Modelled from the spec: [Manager.delete] ([super.delete]) is not
    among the sources; delete removes the rows matching the key, through
    the document client. *)
Definition Manager_delete (itemKey : Item) : Async S WriteOutput :=
  Dynamo.delete dynamodbDocClient itemKey.

Definition _deleteRecord (granule : Item) : Async S WriteOutput :=
  Manager_delete (granuleId_key granule).

Definition delete (granule : Item) : Async S WriteOutput :=
  if truthy (granule !! "published")
  then reject (DeletePublishedGranule
         "You cannot delete a granule that is published to CMR. Remove it from CMR first")
  else _deleteRecord granule.

Definition _getMutableFieldNames (record : Item) : list string :=
  if bool_decide (record !! "status" = Some (VStr "running"))
  then ["createdAt"; "updatedAt"; "timestamp"; "status"; "execution"]
  else Object_keys record.

(** The condition put on every write, and the clause added for a running
    record that carries an execution. *)
Definition createdAt_condition : Condition :=
  cond_or (attribute_not_exists (attr "createdAt"))
          (cond_ge (value_ref ":createdAt") (name_ref "#createdAt")).
Definition execution_condition : Condition :=
  cond_ne (name_ref "#execution") (value_ref ":execution").

(** The [updateParams] that [_storeGranuleRecord] hands to the client. *)
Definition _storeGranuleRecord_updateParams (granuleRecord : Item)
  : UpdateParams :=
  let mutableFieldNames := _getMutableFieldNames granuleRecord in
  let updateParams :=
    _buildDocClientUpdateParams granuleRecord (granuleId_key granuleRecord)
      mutableFieldNames in
  with_ConditionExpression updateParams
    (if bool_decide (granuleRecord !! "status" = Some (VStr "running"))
        && defined (granuleRecord !! "execution")
     then cond_and createdAt_condition execution_condition
     else createdAt_condition).

(** [error.name && error.name.includes('ConditionalCheckFailedException')] *)
Definition isConditionalCheckFailed (error : Error) : bool :=
  match error_name error with
  | Some name => negb (String.eqb name "")
                 && includes name "ConditionalCheckFailedException"
  | None => false
  end.

(** [_storeGranuleRecord]: [None] is the [undefined] returned for a
    rejected conditional write. *)
Definition _storeGranuleRecord (granuleRecord : Item)
  : Async S (option WriteOutput) :=
  let updateParams := _storeGranuleRecord_updateParams granuleRecord in
  try_catch
    (let! response := Dynamo.update dynamodbDocClient updateParams in
     resolve (Some response))
    (λ error,
       if isConditionalCheckFailed error then resolve None
       else reject error).

End Granule.

(** What the conditions of [_storeGranuleRecord] say of a stored item
    [old] (the empty item when nothing is stored) and an incoming record. *)
Definition createdAt_not_older (granuleRecord old : Item) : bool :=
  negb (defined (old !! "createdAt"))
  || compare_ge (granuleRecord !! "createdAt") (old !! "createdAt").

Definition execution_changed (granuleRecord old : Item) : bool :=
  if bool_decide (granuleRecord !! "status" = Some (VStr "running"))
     && defined (granuleRecord !! "execution")
  then compare_ne (old !! "execution") (granuleRecord !! "execution")
  else true.

(** The item left by an accepted write, attribute by attribute: a field of
    the record outside the key is taken from the record when it is mutable
    or not stored yet; everything else is as stored. *)
Definition written_attribute (granuleRecord old : Item) (f : string)
  : option Value :=
  match (granuleRecord ∖ granuleId_key granuleRecord) !! f with
  | Some v =>
      if bool_decide (f ∈ _getMutableFieldNames granuleRecord)
         || negb (defined (old !! f))
      then Some v
      else old !! f
  | None => (granuleId_key granuleRecord ∪ old) !! f
  end.

End Granules.

(** ** The query search client *)

Module QuerySearch.

Section QuerySearchClient.

Context {RecordType : Type}.

(** Modelled from the spec: the class [QuerySearchClient] is not among
    the sources (only its tests are).  Its state is the held query, the
    batch size, the buffer of records not yet consumed and the absolute
    offset; an empty batch marks the sequence as exhausted.  The held
    query is already filtered and sorted: it is given by its full result
    [query], of which a fetch returns the window selected by OFFSET and
    LIMIT.  [fetches] records the (offset, limit) of every query issued,
    oldest first, as the spies of the tests do. *)
Record Client : Type := {
  query : list RecordType;
  limit : nat;
  records : list RecordType;
  offset : nat;
  exhausted : bool;
  fetches : list (nat * nat);
}.

(** [new QuerySearchClient(query, limit)] *)
Definition new (query : list RecordType) (limit : nat) : Client :=
  {| query := query; limit := limit; records := []; offset := 0;
     exhausted := false; fetches := [] |}.

(** Modelled from the spec: the refill issues one query with LIMIT=B and
    OFFSET=current offset; the batch replaces the buffer in full, and an
    empty batch means that the sequence is exhausted. *)
Definition fetchRecords (c : Client) : Client :=
  let batch := take (limit c) (drop (offset c) (query c)) in
  {| query := query c; limit := limit c; records := batch;
     offset := offset c;
     exhausted := match batch with [] => true | _ => false end;
     fetches := (fetches c ++ [(offset c, limit c)])%list |}.

(** A fetch is triggered by an empty buffer, unless the sequence is
    known to be exhausted. *)
Definition needsFetch (c : Client) : bool :=
  match records c with
  | [] => negb (exhausted c)
  | _ => false
  end.

Definition fillIfEmpty (c : Client) : Client :=
  if needsFetch c then fetchRecords c else c.

(** Modelled from the spec: [peek] answers with the next record without
    consuming it, after at most one fetch; the offset is not advanced. *)
Definition peek (c : Client) : option RecordType * Client :=
  let c := fillIfEmpty c in
  (head (records c), c).

(** Modelled from the spec: [shift] fills the buffer as [peek] does,
    removes the next record from it and advances the offset by the
    number of records removed; by the time a full batch is drained and a
    fetch is required, the offset has advanced by the batch size. *)
Definition shift (c : Client) : option RecordType * Client :=
  let c := fillIfEmpty c in
  match records c with
  | [] => (None, c)
  | r :: rest =>
      (Some r,
       {| query := query c; limit := limit c; records := rest;
          offset := offset c + 1; exhausted := exhausted c;
          fetches := fetches c |})
  end.

(** A caller's calls, in order, with what each one answered. *)
Inductive Call : Type := call_peek | call_shift.

Definition call (op : Call) (c : Client) : option RecordType * Client :=
  match op with
  | call_peek => peek c
  | call_shift => shift c
  end.

Fixpoint calls (ops : list Call) (c : Client)
  : list (Call * option RecordType) * Client :=
  match ops with
  | [] => ([], c)
  | op :: ops =>
      let (answer, c) := call op c in
      let (answers, c) := calls ops c in
      ((op, answer) :: answers, c)
  end.

(** What the [shift] calls of a run answered. *)
Definition shifted (answers : list (Call * option RecordType))
  : list (option RecordType) :=
  snd <$> List.filter
    (λ a, match fst a with call_shift => true | call_peek => false end)
    answers.

Definition count_shifts (ops : list Call) : nat :=
  length (List.filter
    (λ op, match op with call_shift => true | call_peek => false end) ops).

(** [shift()] repeated until it answers "none": the records returned, in
    order.  [None] when [fuel] calls were not enough. *)
Fixpoint shiftAll (fuel : nat) (c : Client)
  : option (list RecordType * Client) :=
  match fuel with
  | 0 => None
  | S fuel =>
      match shift c with
      | (None, c) => Some ([], c)
      | (Some r, c) =>
          match shiftAll fuel c with
          | Some (rs, c) => Some (r :: rs, c)
          | None => None
          end
      end
  end.

(** The loop of the paging test:
    [while (await client.peek()) { await client.shift(); }],
    with the records that the [shift] calls returned. *)
Fixpoint pageThrough (fuel : nat) (c : Client)
  : option (list RecordType * Client) :=
  match fuel with
  | 0 => None
  | S fuel =>
      match peek c with
      | (None, c) => Some ([], c)
      | (Some _, c) =>
          let (answer, c) := shift c in
          match pageThrough fuel c with
          | Some (rs, c) => Some ((option_list answer ++ rs)%list, c)
          | None => None
          end
      end
  end.

(** The states that a client built by [new] goes through: the buffer is a
    window of the result that starts at the offset, and a client that
    is marked exhausted has an empty buffer and its offset at the end of
    the result. *)
Definition consistent (results : list RecordType) (B : nat) (c : Client)
  : Prop :=
  query c = results
  ∧ limit c = B
  ∧ (∃ n, records c = take n (drop (offset c) results))
  ∧ (exhausted c = true →
     records c = [] ∧ (length results ≤ offset c)%nat).

End QuerySearchClient.

Arguments Client : clear implicits.

End QuerySearch.

(** ** Search parameters of the granule model *)

Module GranuleSearch.

(** A search parameter is a scalar or an array of scalars ([isArray]). *)
Inductive SearchValue : Type :=
| scalar (v : Value)
| array (vs : list Value).

(** What [getDynamoDbSearchParams] collects while it walks the entries. *)
Record Collected : Type := {
  attributeNames : gmap string string;
  attributeValues : gmap string SearchValue;
  filterArray : list string;
  keyConditionArray : list string;
}.

Record DynamoDbSearchParams : Type := {
  collected : Collected;
  filterExpression : option string;
}.

(** [value.forEach((val, index) => ...)] of the array branch: every element
    gets the placeholder [:key<index>], which is declared and pushed on
    [keyValues]. *)
Fixpoint array_forEach (key : string) (index : nat) (vs : list Value)
    (values : gmap string SearchValue) (keyValues : list string)
  : gmap string SearchValue * list string :=
  match vs with
  | [] => (values, keyValues)
  | val :: vs =>
      array_forEach key (S index) vs
        (<[":" +:+ key +:+ index_string index := scalar val]> values)
        (keyValues ++ [":" +:+ key +:+ index_string index])%list
  end.

(** [key.includes('__') ? key.split('__').shift() : key] *)
Definition field_of (key : string) : string :=
  if includes key "__" then split_shift key "__" else key.

(** The body of the [forEach] over [Object.entries(searchParams)]. *)
Definition forEach_entry (isQuery : bool) (acc : Collected)
    (entry : string * SearchValue) : Collected :=
  let key := entry.1 in
  let value := entry.2 in
  let field := field_of key in
  let names := <["#" +:+ field := field]> (attributeNames acc) in
  let values_expression :=
    if endsWith key "__from" || endsWith key "__to" then
      let operation := if endsWith key "__from" then ">=" else "<=" in
      (<[":" +:+ key := value]> (attributeValues acc),
       "#" +:+ field +:+ " " +:+ operation +:+ " :" +:+ key)
    else
      match value with
      | array vs =>
          let operation := "IN" in
          let values_keyValues :=
            array_forEach key 0 vs (attributeValues acc) [] in
          (values_keyValues.1,
           "#" +:+ field +:+ " " +:+ operation +:+ " ("
             +:+ join ", " values_keyValues.2 +:+ ")")
      | scalar _ =>
          let operation := "=" in
          (<[":" +:+ key := value]> (attributeValues acc),
           if negb isQuery && String.eqb field "granuleId"
           then "contains(#" +:+ field +:+ ", :" +:+ key +:+ ")"
           else "#" +:+ field +:+ " " +:+ operation +:+ " :" +:+ key)
      end in
  if isQuery && String.eqb field "granuleId"
  then {| attributeNames := names;
          attributeValues := values_expression.1;
          filterArray := filterArray acc;
          keyConditionArray :=
            (keyConditionArray acc ++ [values_expression.2])%list |}
  else {| attributeNames := names;
          attributeValues := values_expression.1;
          filterArray := (filterArray acc ++ [values_expression.2])%list;
          keyConditionArray := keyConditionArray acc |}.

(** [isQuery && (field === 'granuleId')]: whether the expression of an
    entry is pushed on [keyConditionArray]. *)
Definition is_key_condition (isQuery : bool) (entry : string * SearchValue)
  : bool :=
  isQuery && String.eqb (field_of entry.1) "granuleId".

(** [searchParams] is the list of entries of the object, in the order of
    [Object.entries]. *)
Definition getDynamoDbSearchParams (searchParams : list (string * SearchValue))
    (isQuery : bool) : DynamoDbSearchParams :=
  let acc :=
    foldl (forEach_entry isQuery)
      {| attributeNames := ∅; attributeValues := ∅;
         filterArray := []; keyConditionArray := [] |}
      searchParams in
  {| collected := acc;
     filterExpression :=
       if (0 <? length (filterArray acc))%nat
       then Some (join " AND " (filterArray acc))
       else None |}.

(** The parameters of a scan; a property that is [undefined] is [None], and
    stays out after [removeNilProperties]. *)
Record ScanParams : Type := {
  TableName : option string;
  ExpressionAttributeNames : gmap string string;
  ExpressionAttributeValues : option (gmap string SearchValue);
  ProjectionExpression : string;
  FilterExpression : option string;
}.

(** The fields that a scan projects. *)
Definition scan_fields : list string :=
  ["granuleId"; "collectionId"; "createdAt"; "beginningDateTime";
   "endingDateTime"; "status"; "updatedAt"; "published"; "provider"].

(** [granuleAttributeScan], up to the queue that it builds: the result is
    the parameters handed to [new GranuleSearchQueue]; [tableName] is
    [process.env.GranulesTable]. *)
Definition granuleAttributeScan (tableName : option string)
    (searchParams : list (string * SearchValue)) : ScanParams :=
  let params := getDynamoDbSearchParams searchParams false in
  let names_projection :=
    foldl (λ acc field,
             (<["#" +:+ field := field]> acc.1, (acc.2 ++ ["#" +:+ field])%list))
      (attributeNames (collected params), []) scan_fields in
  {| TableName := tableName;
     ExpressionAttributeNames := names_projection.1;
     ExpressionAttributeValues :=
       if truthy_string (filterExpression params)
       then Some (attributeValues (collected params))
       else None;
     ProjectionExpression := join ", " names_projection.2;
     FilterExpression := filterExpression params |}.

End GranuleSearch.

(** ** The granule model and its external services *)

Module GranuleServices.

Section Services.

Context {S CmrSettings Metadata ExecutionDescription : Type}.

(** The string that a template literal makes of a property read. *)
Variable ToString : option Value → string.

(** [this.cmrUtils.getCmrSettings()], and the two calls made on
    [new CMR(cmrSettings)]. *)
Variable getCmrSettings : Async S CmrSettings.
Variable getGranuleMetadata : CmrSettings → option Value → Async S Metadata.
Variable metadata_title : Metadata → option Value.
Variable deleteGranule : CmrSettings → option Value → option Value → Async S unit.

(** [this.stepFunctionUtils.describeExecution({ executionArn })] *)
Variable describeExecution : option Value → Async S ExecutionDescription.

(** [CumulusModelError] of [./errors], an error class of that name. *)
Definition CumulusModelError (message : string) : Error :=
  Thrown (Some "CumulusModelError") message.

Definition _removeGranuleFromCmr (granule : Obj) : Async S unit :=
  if negb (truthy (granule !! "published")) || negb (truthy (granule !! "cmrLink"))
  then reject (CumulusModelError
         ("Granule " +:+ ToString (granule !! "granuleId")
          +:+ " is not published to CMR, so cannot be removed from CMR"))
  else
    let! cmrSettings := getCmrSettings in
    let! metadata := getGranuleMetadata cmrSettings (granule !! "cmrLink") in
    let! deleted := deleteGranule cmrSettings (metadata_title metadata)
                      (granule !! "collectionId") in
    resolve tt.

(** [None] is the [undefined] that is returned when the description could
    not be fetched. *)
Definition describeGranuleExecution (executionArn : option Value)
  : Async S (option ExecutionDescription) :=
  try_catch
    (let! executionDescription := describeExecution executionArn in
     resolve (Some executionDescription))
    (λ error, resolve None).

End Services.

End GranuleServices.

(** ** The PDR parser *)

Module Pdr.

(** The errors that the parser throws: [PDRParsingError], with the one or
    two arguments it is built from, the bare [Error] of an empty file group,
    the [TypeError] of a property read on [undefined], the [SyntaxError] of
    an ill-formed regular expression, and what reading the file throws. *)
Inductive PdrError : Type :=
| PDRParsingError (message : string) (pdrName : option string)
| Error_
| TypeError
| SyntaxError
| ReadError (message : string).

Definition Result (A : Type) : Type := PdrError + A.

Definition bind {A B} (m : Result A) (k : A → Result B) : Result B :=
  match m with
  | inl e => inl e
  | inr a => k a
  end.

Notation "'let?' x ':=' m 'in' k" := (bind m (λ x, k))
  (at level 10, x name, m at level 100, k at level 200, only parsing).

(** A PVL aggregate, as the parser reads it: its attributes ([get] finds the
    first one of a name and [.value] is its value) and the aggregates nested
    in it, each a group or an object with an identifier. *)
Inductive AggregateKind : Type := GROUP | OBJECT.

#[warnings="-register-all"]
Inductive Pvl : Type :=
| aggregate (attributes : list (string * Value))
            (nested : list (AggregateKind * string * Pvl)).

Definition attributes (p : Pvl) : list (string * Value) :=
  match p with aggregate a _ => a end.

Definition nested (p : Pvl) : list (AggregateKind * string * Pvl) :=
  match p with aggregate _ n => n end.

(** [spec.get(name)], followed by [.value] when an item is found. *)
Definition get_value (spec : Pvl) (name : string) : option Value :=
  snd <$> List.find (λ item, String.eqb item.1 name) (attributes spec).

(** [document.groups()] *)
Definition groups (p : Pvl) : list Pvl :=
  snd <$> List.filter
    (λ a, match a.1.1 with GROUP => true | OBJECT => false end) (nested p).

(** [document.objects(name)] *)
Definition objects (p : Pvl) (name : string) : list Pvl :=
  snd <$> List.filter
    (λ a, match a.1.1 with
          | OBJECT => String.eqb a.1.2 name
          | GROUP => false
          end) (nested p).

(** [getItem]: [None] is the [null] returned for an optional item. *)
Definition getItem (spec : Pvl) (pdrName : string) (name : string)
    (must : bool) : Result (option Value) :=
  match get_value spec name with
  | Some value => inr (Some value)
  | None =>
      if must then inl (PDRParsingError name (Some pdrName))
      else inr None
  end.

(** The object that [parseSpec] returns; the two checksum properties are
    set only when their value is truthy. *)
Record ParsedSpec : Type := {
  path : option Value;
  fileSize : option Value;
  name : option Value;
  checksumType : option Value;
  checksumValue : option Value;
}.

(** [typeof v !== 'number'] *)
Definition not_a_number (v : option Value) : bool :=
  match v with
  | Some (VNum _) => false
  | _ => true
  end.

Definition parseSpec (pdrName : string) (spec : Pvl) : Result ParsedSpec :=
  let get := getItem spec pdrName in
  let? path := get "DIRECTORY_ID" true in
  let? filename := get "FILE_ID" true in
  let? fileSize := get "FILE_SIZE" true in
  let? checksumType := get "FILE_CKSUM_TYPE" false in
  let? checksumValue := get "FILE_CKSUM_VALUE" false in
  let? both :=
    if truthy checksumType || truthy checksumValue then
      if negb (truthy checksumType)
      then inl (PDRParsingError "MISSING FILE_CKSUM_TYPE PARAMETER" None)
      else if negb (truthy checksumValue)
      then inl (PDRParsingError "MISSING FILE_CKSUM_VALUE PARAMETER" None)
      else inr tt
    else inr tt in
  if truthy checksumType
     && negb (bool_decide (checksumType = Some (VStr "CKSUM")))
  then inl (PDRParsingError "UNSUPPORTED CHECKSUM TYPE" None)
  else if truthy checksumValue && not_a_number checksumValue
  then inl (PDRParsingError "FILE_CKSUM_VALUE" (Some pdrName))
  else inr {| path := path;
              fileSize := fileSize;
              name := filename;
              checksumType := if truthy checksumType then checksumType else None;
              checksumValue := if truthy checksumValue then checksumValue else None |}.

(** [specs.map(parseSpec.bind(null, pdrName))]: the first spec that throws
    ends the map. *)
Fixpoint map_parseSpec (pdrName : string) (specs : list Pvl)
  : Result (list ParsedSpec) :=
  match specs with
  | [] => inr []
  | spec :: specs =>
      let? file := parseSpec pdrName spec in
      let? files := map_parseSpec pdrName specs in
      inr (file :: files)
  end.

Section Parser.

(** The string that JavaScript makes of a value inside [+]; [None] is
    [null]. *)
Variable ToString : option Value → string.

(** [x + y] on two numbers, as JavaScript computes it: the sum of two
    doubles, rounded to the nearest double. *)
Variable number_plus : Z → Z → Z.

(** [new RegExp(regex)], which throws on an ill-formed expression, and
    [fileName.match] with it: [None] when the file name does not match,
    otherwise the first capture group, which is [undefined] when the
    expression has none. *)
Variable regex_valid : string → bool.
Variable regex_match : string → string → option (option string).

(** [loadPdrFile]: reading the file and parsing it with the PVL library. *)
Variable loadPdrFile : string → Result Pvl.

(** [a + b] on values: the sum of two numbers when neither side is a string
    or a date (with [null] as 0 and booleans as 0 and 1), otherwise the
    concatenation of the two strings. *)
Definition as_number (v : option Value) : option Z :=
  match v with
  | None => Some 0%Z
  | Some (VNum n) => Some n
  | Some (VBool b) => Some (if b then 1 else 0)%Z
  | Some (VStr _) | Some (VDate _) => None
  end.

Definition plus (a b : option Value) : option Value :=
  match as_number a, as_number b with
  | Some x, Some y => Some (VNum (number_plus x y))
  | _, _ => Some (VStr (ToString a +:+ ToString b))
  end.

(** [extractGranuleId]: [match] is a method of strings only. *)
Definition extractGranuleId (fileName : option Value) (regex : string)
  : Result (option Value) :=
  if negb (regex_valid regex) then inl SyntaxError
  else
    match fileName with
    | Some (VStr s) =>
        match regex_match regex s with
        | Some group => inr (VStr <$> group)
        | None => inr fileName
        end
    | _ => inl TypeError
    end.

Record Granule : Type := {
  granuleId : option Value;
  dataType : Value;
  granuleSize : option Value;
  files : list ParsedSpec;
}.

Definition granuleFromFileGroup (fileGroup : Pvl)
    (granuleIdExtraction : string) (pdrName : string) : Result Granule :=
  match get_value fileGroup "DATA_TYPE" with
  | None => inl (PDRParsingError "DATA_TYPE is missing" None)
  | Some dataType =>
      let specs := objects fileGroup "FILE_SPEC" in
      if (length specs =? 0)%nat then inl Error_
      else
        let? files := map_parseSpec pdrName specs in
        let? granuleId :=
          match files with
          | file :: _ => extractGranuleId (name file) granuleIdExtraction
          | [] => inl TypeError
          end in
        inr {| granuleId := granuleId;
               dataType := dataType;
               granuleSize :=
                 foldl (λ total file, plus total (fileSize file))
                   (Some (VNum 0)) files;
               files := files |}
  end.

(** [fileGroups.map(...)] with [granuleFromFileGroup]. *)
Fixpoint map_granuleFromFileGroup (fileGroups : list Pvl)
    (granuleIdExtraction : string) (pdrName : string)
  : Result (list Granule) :=
  match fileGroups with
  | [] => inr []
  | fileGroup :: fileGroups =>
      let? granule :=
        granuleFromFileGroup fileGroup granuleIdExtraction pdrName in
      let? granules :=
        map_granuleFromFileGroup fileGroups granuleIdExtraction pdrName in
      inr (granule :: granules)
  end.

Record ParsedPdr : Type := {
  filesCount : nat;
  granules : list Granule;
  granulesCount : nat;
  totalSize : option Value;
}.

(** [parsePdr]; [granuleIdExtraction] is [collection.granuleIdExtraction]. *)
Definition parsePdr (pdrFilePath : string) (granuleIdExtraction : string)
    (pdrName : string) : Result ParsedPdr :=
  let? pdrDocument := loadPdrFile pdrFilePath in
  let pdrDocument :=
    match groups pdrDocument with
    | group :: _ => group
    | [] => pdrDocument
    end in
  let fileGroups := objects pdrDocument "FILE_GROUP" in
  let? granules :=
    map_granuleFromFileGroup fileGroups granuleIdExtraction pdrName in
  let filesCount :=
    foldl (λ total granule, (total + length (files granule))%nat) 0%nat granules in
  match get_value pdrDocument "TOTAL_FILE_COUNT" with
  | None => inl TypeError
  | Some expectedFileCount =>
      if negb (bool_decide (VNum (Z.of_nat filesCount) = expectedFileCount))
      then inl (PDRParsingError "FILE COUNT doesn't match expected file count" None)
      else inr {| filesCount := filesCount;
                  granules := granules;
                  granulesCount := length granules;
                  totalSize :=
                    foldl (λ total granule, plus total (granuleSize granule))
                      (Some (VNum 0)) granules |}
  end.

End Parser.

End Pdr.

(** ** The statements of the specification that the code refines *)

Module Spec.

Import Pg.

(** The specification of [searchWithUpdatedAtRange]: the records matching
    the filter whose [updated_at] lies in [[from, to]], where an omitted
    [from] is the epoch and an omitted [to] is the current time. *)
Definition searchWithUpdatedAtRange (rows : list Row) (params : Row)
    (range : UpdatedAtRange) (now : Z) : list Row :=
  List.filter
    (λ row, matches params row
            && between "updated_at"
                 (default 0%Z (updatedAtFrom range),
                  default now (updatedAtTo range)) row)
    rows.

End Spec.

(** ** Sample data *)

Module Sample.

(** A granule record of the table, with the fields that the conditions and
    the allow-list look at, and one that they do not. *)
Definition granule (status : string) (createdAt : Z) (execution : string)
    (productVolume : Z) : Obj :=
  {[ "granuleId" := VStr "g1";
     "status" := VStr status;
     "createdAt" := VNum createdAt;
     "execution" := VStr execution;
     "productVolume" := VNum productVolume ]}.

(** The table that holds exactly that record. *)
Definition table (stored : Obj) : gmap string Obj := {[ "g1" := stored ]}.

Definition published (flag : bool) : Obj :=
  {[ "granuleId" := VStr "g1"; "published" := VBool flag ]}.

(** A database whose table [granules] holds one row, stamped [updated_at]. *)
Definition rows (updated_at : Z) : gmap string (list Obj) :=
  {[ "granules" :=
       [ {[ "granule_id" := VStr "g1"; "updated_at" := VDate updated_at ]} ] ]}.

(** A file spec of a PDR, with the checksum items given. *)
Definition file_spec (file : string) (size : Z)
    (checksum : list (string * Value)) : Pdr.Pvl :=
  Pdr.aggregate
    ([("DIRECTORY_ID", VStr "/data"); ("FILE_ID", VStr file);
      ("FILE_SIZE", VNum size)] ++ checksum)%list
    [].

(** A file group with two file specs, and a PDR that holds it. *)
Definition file_group : Pdr.Pvl :=
  Pdr.aggregate [("DATA_TYPE", VStr "MOD09")]
    [(Pdr.OBJECT, "FILE_SPEC",
      file_spec "a.hdf" 10
        [("FILE_CKSUM_TYPE", VStr "CKSUM"); ("FILE_CKSUM_VALUE", VNum 42)]);
     (Pdr.OBJECT, "FILE_SPEC", file_spec "a.met" 5 [])].

Definition pdr : Pdr.Pvl :=
  Pdr.aggregate [("TOTAL_FILE_COUNT", VNum 2)]
    [(Pdr.OBJECT, "FILE_GROUP", file_group)].

End Sample.

(** * Properties *)

(** ** The generic Postgres model *)

Section PgFacts.

Import Pg.

Variable tableName : tableNames.

Lemma holds_where params row :
  forallb (holds row) [where_ params] = matches params row.
Proof. simpl. apply andb_true_r. Qed.

Lemma get_postgres params db :
  get tableName postgres params db =
    (db, match head (List.filter (matches params) (table_rows db tableName)) with
         | Some r => inr r
         | None => inl (RecordDoesNotExist tableName params)
         end).
Proof.
  unfold get, await; simpl.
  erewrite filter_ext; [|intros row; apply holds_where].
  destruct (head _); reflexivity.
Qed.

Lemma exists_unfold knex params db :
  exists_ tableName knex params db =
    match get tableName knex params db with
    | (db', inr _) => (db', inr true)
    | (db', inl e) =>
        if instanceof_RecordDoesNotExist e then (db', inr false)
        else (db', inl e)
    end.
Proof.
  unfold exists_, try_catch, await.
  destruct (get tableName knex params db) as [db' [e|r]]; [|reflexivity].
  destruct e; reflexivity.
Qed.

Lemma head_filter_existsb {A} (f : A → bool) (l : list A) :
  defined (head (List.filter f l)) = existsb f l.
Proof.
  induction l as [|x l IH]; simpl; [reflexivity|].
  destruct (f x); simpl; [reflexivity | exact IH].
Qed.

Lemma exists_postgres params db :
  exists_ tableName postgres params db =
    (db, inr (existsb (matches params) (table_rows db tableName))).
Proof.
  rewrite exists_unfold, get_postgres, <- head_filter_existsb.
  destruct (head _); reflexivity.
Qed.

Lemma existsb_filter_negb {A} (f : A → bool) (l : list A) :
  existsb f (List.filter (λ x, negb (f x)) l) = false.
Proof.
  induction l as [|x l IH]; simpl; [reflexivity|].
  destruct (f x) eqn:E; simpl; [exact IH | by rewrite E].
Qed.

(** C7: [exists] answers [true] when [get] succeeds, [false] when [get]
    fails with [RecordDoesNotExist], and rethrows any other error of [get]
    unchanged, whatever the handle does.  On a healthy database it answers
    whether some row matches the filter: [false] on a database that never
    held a row, [false] again once the matching rows are deleted. *)
Theorem exists_never_throws_for_absence (params : Row) :
  (∀ (knexOrTransaction : Knex) (db : Db),
     match get tableName knexOrTransaction params db with
     | (db', inr _) =>
         exists_ tableName knexOrTransaction params db = (db', inr true)
     | (db', inl (RecordDoesNotExist _ _)) =>
         exists_ tableName knexOrTransaction params db = (db', inr false)
     | (db', inl e) =>
         exists_ tableName knexOrTransaction params db = (db', inl e)
     end)
  ∧ (∀ db : Db,
       exists_ tableName postgres params db =
         (db, inr (existsb (matches params) (table_rows db tableName))))
  ∧ exists_ tableName postgres params ∅ = (∅, inr false)
  ∧ (∀ db : Db,
       let db' := (Pg.delete tableName postgres params db).1 in
       exists_ tableName postgres params db' = (db', inr false)).
Proof.
  split; [|split; [|split]].
  - intros knex db. rewrite exists_unfold.
    destruct (get tableName knex params db) as [db' [e|r]]; [|reflexivity].
    destruct e; reflexivity.
  - apply exists_postgres.
  - rewrite exists_postgres. reflexivity.
  - intros db db'. rewrite exists_postgres. do 2 f_equal.
    subst db'. unfold Pg.delete, table_rows. simpl.
    rewrite lookup_insert_eq. simpl.
    erewrite (filter_ext (λ row, negb _)); [apply existsb_filter_negb|].
    intros row. simpl. by rewrite andb_true_r.
Qed.

Lemma holds_range params range now row :
  forallb (holds row)
    (where_ params ::
     if defined (updatedAtFrom range) || defined (updatedAtTo range)
     then [whereBetween "updated_at"
             (default 0%Z (updatedAtFrom range),
              default now (updatedAtTo range))]
     else []) =
  matches params row
  && (if defined (updatedAtFrom range) || defined (updatedAtTo range)
      then between "updated_at"
             (default 0%Z (updatedAtFrom range),
              default now (updatedAtTo range)) row
      else true).
Proof.
  destruct (defined (updatedAtFrom range) || defined (updatedAtTo range));
    simpl; by rewrite ?andb_true_r.
Qed.

(** C8, as the code has it: when at least one bound is given, the result
    is the records matching the filter whose [updated_at] lies in
    [[from, to]] inclusive, an omitted [from] being the epoch and an
    omitted [to] the current time; when both bounds are omitted, the result
    is every record matching the filter, with no bound on [updated_at]. *)
Theorem searchWithUpdatedAtRange_bounds
    (params : Row) (range : UpdatedAtRange) (now : Z) (db : Db) :
  searchWithUpdatedAtRange tableName postgres params range now db =
    (db, inr (
       match updatedAtFrom range, updatedAtTo range with
       | None, None =>
           List.filter (matches params) (table_rows db tableName)
       | _, _ =>
           Spec.searchWithUpdatedAtRange (table_rows db tableName)
             params range now
       end)).
Proof.
  unfold searchWithUpdatedAtRange, await, resolve; simpl.
  erewrite filter_ext; [|intros row; apply holds_range].
  do 2 f_equal. unfold Spec.searchWithUpdatedAtRange.
  destruct (updatedAtFrom range), (updatedAtTo range); simpl; try reflexivity.
  apply filter_ext. intros row. apply andb_true_r.
Qed.

End PgFacts.

(** C8 as stated fails: with both bounds omitted, a record stamped after the
    current time is returned, although it lies outside [[epoch, now]]. *)
Lemma searchWithUpdatedAtRange_unbounded_when_omitted :
  Pg.searchWithUpdatedAtRange "granules" Pg.postgres
    {[ "granule_id" := VStr "g1" ]}
    {| Pg.updatedAtFrom := None; Pg.updatedAtTo := None |} 1000
    (Sample.rows 2000)
  ≠ (Sample.rows 2000,
     inr (Spec.searchWithUpdatedAtRange
            (Pg.table_rows (Sample.rows 2000) "granules")
            {[ "granule_id" := VStr "g1" ]}
            {| Pg.updatedAtFrom := None; Pg.updatedAtTo := None |} 1000)).
Proof.
  intros H.
  apply (f_equal (λ x, match x.2 with inr l => length l | inl _ => 0 end)) in H.
  vm_compute in H. discriminate H.
Qed.

(** ** The granule model *)

Section GranuleFacts.

Import Dynamo Granules.

Lemma Object_keys_elem (o : Obj) (f : string) :
  f ∈ Object_keys o ↔ is_Some (o !! f).
Proof.
  unfold Object_keys. rewrite list_elem_of_fmap. split.
  - intros [[g v] [-> H]]. apply elem_of_map_to_list in H. by exists v.
  - intros [v H]. exists (f, v). split; [done|]. by apply elem_of_map_to_list.
Qed.

Lemma build_names item key mut c f :
  ExpressionAttributeNames
    (with_ConditionExpression (_buildDocClientUpdateParams item key mut) c)
    !! ("#" +:+ f)
  = (item ∖ key) !! f ≫= λ _, Some f.
Proof.
  cbn [with_ConditionExpression _buildDocClientUpdateParams ExpressionAttributeNames].
  rewrite (lookup_kmap (String.append "#")). by rewrite map_lookup_imap.
Qed.

Lemma build_values item key mut c f :
  ExpressionAttributeValues
    (with_ConditionExpression (_buildDocClientUpdateParams item key mut) c)
    !! (":" +:+ f)
  = (item ∖ key) !! f.
Proof.
  cbn [with_ConditionExpression _buildDocClientUpdateParams ExpressionAttributeValues].
  by rewrite (lookup_kmap (String.append ":")).
Qed.

Lemma foldl_actions item key mut c old (l : list string) (acc : Item) :
  (∀ f, f ∈ l → is_Some ((item ∖ key) !! f)) →
  ∃ new : Item,
    foldl (apply_action
             (with_ConditionExpression (_buildDocClientUpdateParams item key mut) c) old)
      (Some acc)
      ((λ fieldName,
          if bool_decide (fieldName ∈ mut)
          then set_value ("#" +:+ fieldName) (":" +:+ fieldName)
          else set_if_not_exists ("#" +:+ fieldName) (":" +:+ fieldName)) <$> l)
    = Some new
    ∧ ∀ g, new !! g =
        if bool_decide (g ∈ l)
           && (bool_decide (g ∈ mut) || negb (defined (old !! g)))
        then (item ∖ key) !! g else acc !! g.
Proof.
  revert acc. induction l as [|f l IH]; intros acc Hl.
  - exists acc. split; [reflexivity|]. intros g.
    rewrite bool_decide_eq_false_2; [reflexivity | apply not_elem_of_nil].
  - destruct (Hl f) as [v Hv]; [left|].
    assert (Hl' : ∀ g, g ∈ l → is_Some ((item ∖ key) !! g)).
    { intros g Hg. apply Hl. by right. }
    rewrite fmap_cons. cbn [foldl].
    set (p := with_ConditionExpression _ _).
    assert (Hstep : ∃ acc1 : Item,
      apply_action p old (Some acc)
        (if bool_decide (f ∈ mut)
         then set_value ("#" +:+ f) (":" +:+ f)
         else set_if_not_exists ("#" +:+ f) (":" +:+ f)) = Some acc1
      ∧ ∀ g, acc1 !! g =
          if bool_decide (g = f)
             && (bool_decide (g ∈ mut) || negb (defined (old !! g)))
          then (item ∖ key) !! g else acc !! g).
    { destruct (bool_decide (f ∈ mut)) eqn:Hm;
        cbn [apply_action]; subst p;
        rewrite build_names, build_values, Hv; cbn [mbind option_bind].
      - eexists; split; [reflexivity|]. intros g.
        destruct (decide (g = f)) as [->|Hne].
        + rewrite bool_decide_eq_true_2 by done. rewrite Hm. simpl.
          by rewrite lookup_insert_eq.
        + rewrite (bool_decide_eq_false_2 (g = f)) by done. simpl.
          by rewrite lookup_insert_ne.
      - eexists; split; [reflexivity|]. intros g.
        destruct (decide (g = f)) as [->|Hne].
        + rewrite bool_decide_eq_true_2 by done. rewrite Hm. simpl.
          destruct (defined (old !! f)); simpl; [done|].
          by rewrite lookup_insert_eq.
        + rewrite (bool_decide_eq_false_2 (g = f)) by done. simpl.
          destruct (defined (old !! f)); [done|]. by rewrite lookup_insert_ne. }
    destruct Hstep as (acc1 & -> & Hacc1).
    destruct (IH acc1 Hl') as (new & Hnew & Hlook).
    exists new. split; [exact Hnew|]. intros g.
    rewrite Hlook, Hacc1.
    destruct (decide (g = f)) as [->|Hne].
    + rewrite (bool_decide_eq_true_2 (f ∈ f :: l)) by left.
      rewrite (bool_decide_eq_true_2 (f = f)) by done.
      destruct (bool_decide (f ∈ l)); simpl;
        destruct (bool_decide (f ∈ mut) || negb (defined (old !! f))); done.
    + rewrite (bool_decide_eq_false_2 (g = f)) by done. simpl.
      rewrite (bool_decide_ext (g ∈ f :: l) (g ∈ l)); [done|].
      rewrite elem_of_cons. intuition congruence.
Qed.

Lemma fields_lookup (granuleRecord : Item) f :
  (granuleRecord ∖ granuleId_key granuleRecord) !! f =
    if bool_decide (f = "granuleId") then None else granuleRecord !! f.
Proof.
  rewrite lookup_difference. unfold granuleId_key.
  case_bool_decide as Hf.
  - subst f. destruct (granuleRecord !! "granuleId") as [v|] eqn:Hk.
    + by rewrite lookup_singleton_eq.
    + by rewrite lookup_empty.
  - destruct (granuleRecord !! "granuleId") as [v|].
    + by rewrite lookup_singleton_ne.
    + by rewrite lookup_empty.
Qed.

Lemma apply_update_store (granuleRecord old : Item) :
  ∃ new : Item,
    apply_update (_storeGranuleRecord_updateParams granuleRecord) old = Some new
    ∧ ∀ g, new !! g = written_attribute granuleRecord old g.
Proof.
  unfold apply_update, _storeGranuleRecord_updateParams.
  cbn [with_ConditionExpression UpdateExpression Key
       _buildDocClientUpdateParams].
  edestruct (foldl_actions granuleRecord (granuleId_key granuleRecord)
    (_getMutableFieldNames granuleRecord)
    (if bool_decide (granuleRecord !! "status" = Some (VStr "running"))
        && defined (granuleRecord !! "execution")
     then cond_and createdAt_condition execution_condition
     else createdAt_condition) old
    (Object_keys (granuleRecord ∖ granuleId_key granuleRecord))
    (granuleId_key granuleRecord ∪ old)) as (new & Hnew & Hlook).
  { intros f. by rewrite Object_keys_elem. }
  exists new. split; [exact Hnew|]. intros g. rewrite Hlook.
  unfold written_attribute.
  destruct ((granuleRecord ∖ granuleId_key granuleRecord) !! g) as [v|] eqn:Hg.
  - rewrite bool_decide_eq_true_2 by (rewrite Object_keys_elem, Hg; eauto).
    simpl. destruct (_ || _); [done|].
    apply lookup_difference_Some in Hg as [_ Hk].
    by rewrite lookup_union_r.
  - rewrite bool_decide_eq_false_2; [done|].
    rewrite Object_keys_elem, Hg. by intros [? ?].
Qed.

Lemma eval_createdAt_condition (granuleRecord old : Item) c :
  granuleRecord !! "createdAt" = Some c →
  eval_condition (_storeGranuleRecord_updateParams granuleRecord) old
    createdAt_condition = Some (createdAt_not_older granuleRecord old).
Proof.
  intros Hc. unfold createdAt_condition, createdAt_not_older.
  cbn [eval_condition operand_value]. unfold _storeGranuleRecord_updateParams.
  change ":createdAt" with (":" +:+ "createdAt").
  change "#createdAt" with ("#" +:+ "createdAt").
  rewrite build_names, build_values, fields_lookup, Hc. reflexivity.
Qed.

Lemma eval_execution_condition (granuleRecord old : Item) e :
  granuleRecord !! "execution" = Some e →
  eval_condition (_storeGranuleRecord_updateParams granuleRecord) old
    execution_condition
  = Some (compare_ne (old !! "execution") (granuleRecord !! "execution")).
Proof.
  intros He. unfold execution_condition.
  cbn [eval_condition operand_value]. unfold _storeGranuleRecord_updateParams.
  change ":execution" with (":" +:+ "execution").
  change "#execution" with ("#" +:+ "execution").
  rewrite build_names, build_values, fields_lookup, He. reflexivity.
Qed.

Lemma eval_store_condition (granuleRecord old : Item) c cond :
  granuleRecord !! "createdAt" = Some c →
  ConditionExpression (_storeGranuleRecord_updateParams granuleRecord) = Some cond →
  eval_condition (_storeGranuleRecord_updateParams granuleRecord) old cond
  = Some (createdAt_not_older granuleRecord old
          && execution_changed granuleRecord old).
Proof.
  intros Hc Hcond. unfold execution_changed.
  unfold _storeGranuleRecord_updateParams in Hcond at 1.
  cbn [with_ConditionExpression ConditionExpression] in Hcond.
  injection Hcond as <-.
  destruct (bool_decide _ && defined _) eqn:Hrun.
  - apply andb_true_iff in Hrun as [_ He].
    destruct (granuleRecord !! "execution") as [e|] eqn:Hex; [|done].
    cbn [eval_condition].
    fold createdAt_condition.
    rewrite (eval_createdAt_condition _ _ c Hc).
    fold execution_condition.
    rewrite (eval_execution_condition _ _ e Hex). by rewrite Hex.
  - rewrite (eval_createdAt_condition _ _ c Hc). by rewrite andb_true_r.
Qed.

(** What [_storeGranuleRecord] does on a healthy table. *)
Lemma storeGranuleRecord_dynamodb (granuleRecord : Item) (table : Table) k c :
  granuleRecord !! "granuleId" = Some (VStr k) →
  granuleRecord !! "createdAt" = Some c →
  let old := default ∅ (table !! k) in
  ∃ new : Item,
    (∀ g, new !! g = written_attribute granuleRecord old g)
    ∧ _storeGranuleRecord dynamodb granuleRecord table =
        if createdAt_not_older granuleRecord old
           && execution_changed granuleRecord old
        then (<[k := new]> table, inr (Some {| Attributes := None |}))
        else (table, inr None).
Proof.
  intros Hk Hc old.
  destruct (apply_update_store granuleRecord old) as (new & Hnew & Hlook).
  exists new. split; [exact Hlook|].
  unfold _storeGranuleRecord, try_catch, await, resolve.
  cbn [Dynamo.update dynamodb]. unfold table_update.
  assert (HK : Key (_storeGranuleRecord_updateParams granuleRecord) !! "granuleId"
               = Some (VStr k)).
  { unfold _storeGranuleRecord_updateParams.
    cbn [with_ConditionExpression Key _buildDocClientUpdateParams].
    unfold granuleId_key. rewrite Hk. by rewrite lookup_singleton_eq. }
  rewrite HK. fold old. rewrite Hnew.
  destruct (ConditionExpression (_storeGranuleRecord_updateParams granuleRecord))
    as [cond|] eqn:Hcond; [|discriminate Hcond].
  rewrite (eval_store_condition _ old c cond Hc Hcond).
  destruct (createdAt_not_older granuleRecord old
            && execution_changed granuleRecord old); reflexivity.
Qed.

Lemma eval_condition_no_createdAt (granuleRecord old : Item) cond :
  granuleRecord !! "createdAt" = None →
  ConditionExpression (_storeGranuleRecord_updateParams granuleRecord) = Some cond →
  eval_condition (_storeGranuleRecord_updateParams granuleRecord) old cond = None.
Proof.
  intros Hc Hcond.
  assert (H : eval_condition (_storeGranuleRecord_updateParams granuleRecord)
                old createdAt_condition = None).
  { unfold createdAt_condition. cbn [eval_condition operand_value].
    unfold _storeGranuleRecord_updateParams.
    change ":createdAt" with (":" +:+ "createdAt").
    rewrite build_values, fields_lookup, Hc. reflexivity. }
  unfold _storeGranuleRecord_updateParams in Hcond at 1.
  cbn [with_ConditionExpression ConditionExpression] in Hcond.
  injection Hcond as <-.
  destruct (bool_decide _ && defined _); [|exact H].
  cbn [eval_condition]. fold createdAt_condition. by rewrite H.
Qed.

(** A record without [createdAt] makes an invalid request: the condition
    mentions [:createdAt], which is then not declared. *)
Lemma storeGranuleRecord_no_createdAt (granuleRecord : Item) (table : Table) :
  granuleRecord !! "createdAt" = None →
  _storeGranuleRecord dynamodb granuleRecord table
  = (table, inl ValidationException).
Proof.
  intros Hc.
  unfold _storeGranuleRecord, try_catch, await, resolve.
  cbn [Dynamo.update dynamodb]. unfold table_update.
  destruct (Key _ !! "granuleId") as [[k| | |]|]; try reflexivity.
  destruct (ConditionExpression (_storeGranuleRecord_updateParams granuleRecord))
    as [cond|] eqn:Hcond; [|discriminate Hcond].
  rewrite (eval_condition_no_createdAt _ _ cond Hc Hcond). reflexivity.
Qed.

(** An applied write, read backwards. *)
Lemma storeGranuleRecord_applied (granuleRecord : Item) (table table' : Table)
    k out :
  granuleRecord !! "granuleId" = Some (VStr k) →
  _storeGranuleRecord dynamodb granuleRecord table = (table', inr (Some out)) →
  let old := default ∅ (table !! k) in
  createdAt_not_older granuleRecord old = true
  ∧ execution_changed granuleRecord old = true
  ∧ ∃ new : Item, table' = <[k := new]> table
      ∧ ∀ g, new !! g = written_attribute granuleRecord old g.
Proof.
  intros Hk Hrun old.
  destruct (granuleRecord !! "createdAt") as [c|] eqn:Hc.
  - destruct (storeGranuleRecord_dynamodb granuleRecord table k c Hk Hc)
      as (new & Hlook & Heq).
    fold old in Hlook, Heq. rewrite Heq in Hrun.
    destruct (createdAt_not_older granuleRecord old) eqn:H1;
      destruct (execution_changed granuleRecord old) eqn:H2;
      simpl in Hrun; try discriminate Hrun.
    injection Hrun as <- _. split; [done|]. split; [done|]. by exists new.
  - rewrite (storeGranuleRecord_no_createdAt _ _ Hc) in Hrun. discriminate Hrun.
Qed.

End GranuleFacts.

(** [includes] finds the occurrences of a text. *)

Lemma substring_prefix (n : nat) (s t : string) :
  substring 0 n s = t → String.length t = n → ∃ post, s = t +:+ post.
Proof.
  revert s t. induction n as [|n IH]; intros s t Hsub Hlen.
  - destruct t; [|discriminate Hlen]. by exists s.
  - destruct s as [|c s]; cbn in Hsub.
    + subst t. discriminate Hlen.
    + destruct t as [|c' t]; [discriminate Hsub|].
      injection Hsub as -> Hsub. injection Hlen as Hlen.
      destruct (IH s t Hsub Hlen) as [post ->]. by exists post.
Qed.

Lemma substring_occurs (m n : nat) (s t : string) :
  substring m n s = t → String.length t = n → t ≠ "" →
  ∃ pre post, s = pre +:+ t +:+ post.
Proof.
  revert s. induction m as [|m IH]; intros s Hsub Hlen Ht.
  - destruct (substring_prefix n s t Hsub Hlen) as [post ->]. by exists "", post.
  - destruct s as [|c s]; cbn in Hsub.
    + destruct n; cbn in Hsub; by subst t.
    + destruct (IH s Hsub Hlen Ht) as (pre & post & ->).
      by exists (String c pre), post.
Qed.

Lemma append_cons (c : Ascii.ascii) (s t : string) :
  String c s +:+ t = String c (s +:+ t).
Proof. reflexivity. Qed.

Lemma substring_append_prefix (t post : string) :
  substring 0 (String.length t) (t +:+ post) = t.
Proof.
  induction t as [|c t IH].
  - change ("" +:+ post) with post. by destruct post.
  - rewrite append_cons. cbn [String.length substring]. by f_equal.
Qed.

Lemma substring_append (pre t post : string) :
  substring (String.length pre) (String.length t) (pre +:+ t +:+ post) = t.
Proof.
  induction pre as [|c pre IH].
  - change ("" +:+ t +:+ post) with (t +:+ post). apply substring_append_prefix.
  - rewrite append_cons. exact IH.
Qed.

Lemma includes_occurs (haystack needle : string) :
  needle ≠ "" →
  includes haystack needle = true
  ↔ ∃ pre post, haystack = pre +:+ needle +:+ post.
Proof.
  intros Hne. unfold includes.
  destruct (String.index 0 needle haystack) as [m|] eqn:Hi.
  - split; [intros _ | done].
    apply (substring_occurs m (String.length needle)); [|done..].
    by apply (index_correct1 0).
  - split; [done|]. intros (pre & post & ->). exfalso.
    apply (index_correct3 0 (String.length pre) _ _ Hi Hne); [lia|].
    apply substring_append.
Qed.

Section GranuleClaims.

Import Dynamo Granules.

(** C1, as the code has it.  For a stored granule whose status is
    [completed], a [running] upsert for the same key is rejected, and the
    stored status stays [completed], whenever the upsert carries the
    execution already stored or a [createdAt] strictly older than the
    stored one.  For a stored granule whose status is [running], a
    [completed] upsert whose [createdAt] is not older than the stored one
    (or when none is stored) sets the stored status to [completed]. *)
Theorem granule_status_monotonicity
    (granuleRecord old : Item) (table : Table) (k : string) (ci : Z) :
  table !! k = Some old →
  granuleRecord !! "granuleId" = Some (VStr k) →
  granuleRecord !! "createdAt" = Some (VNum ci) →
  (old !! "status" = Some (VStr "completed") →
   granuleRecord !! "status" = Some (VStr "running") →
   (∃ e, granuleRecord !! "execution" = Some e ∧ old !! "execution" = Some e)
   ∨ (∃ ce, old !! "createdAt" = Some (VNum ce) ∧ (ci < ce)%Z) →
   ∃ table', _storeGranuleRecord dynamodb granuleRecord table = (table', inr None)
     ∧ table' !! k ≫= (.!! "status") = Some (VStr "completed"))
  ∧ (old !! "status" = Some (VStr "running") →
     granuleRecord !! "status" = Some (VStr "completed") →
     old !! "createdAt" = None
     ∨ (∃ ce, old !! "createdAt" = Some (VNum ce) ∧ (ce ≤ ci)%Z) →
     ∃ table' out,
       _storeGranuleRecord dynamodb granuleRecord table = (table', inr (Some out))
       ∧ table' !! k ≫= (.!! "status") = Some (VStr "completed")).
Proof.
  intros Hold Hk Hc.
  destruct (storeGranuleRecord_dynamodb granuleRecord table k (VNum ci) Hk Hc)
    as (new & Hlook & Heq).
  rewrite Hold in Hlook, Heq. cbn [from_option id] in Hlook, Heq.
  split.
  - intros Hst Hrun Hrej. exists table.
    assert (Hguard : createdAt_not_older granuleRecord old
                     && execution_changed granuleRecord old = false).
    { destruct Hrej as [(e & He & He') | (ce & Hce & Hlt)].
      - apply andb_false_iff. right. unfold execution_changed.
        rewrite Hrun, He, He'. rewrite bool_decide_eq_true_2 by done.
        cbn [defined andb]. unfold compare_ne.
        by rewrite bool_decide_eq_true_2.
      - apply andb_false_iff. left. unfold createdAt_not_older.
        rewrite Hc, Hce. cbn [defined negb orb compare_ge value_ge].
        apply Z.leb_gt. exact Hlt. }
    rewrite Heq, Hguard. split; [reflexivity|].
    rewrite Hold. exact Hst.
  - intros Hst Hdone Hnew.
    assert (Hguard : createdAt_not_older granuleRecord old
                     && execution_changed granuleRecord old = true).
    { apply andb_true_iff. split.
      - unfold createdAt_not_older.
        destruct Hnew as [Hnone | (ce & Hce & Hle)].
        + by rewrite Hnone.
        + rewrite Hc, Hce. cbn [defined negb orb compare_ge value_ge].
          apply Z.leb_le. exact Hle.
      - unfold execution_changed. rewrite Hdone.
        by rewrite bool_decide_eq_false_2. }
    rewrite Heq, Hguard. eexists _, _. split; [reflexivity|].
    rewrite lookup_insert_eq. cbn [mbind option_bind].
    rewrite Hlook. unfold written_attribute.
    rewrite fields_lookup, Hdone. cbn [bool_decide decide_rel].
    rewrite bool_decide_eq_false_2 by done.
    unfold _getMutableFieldNames. rewrite Hdone.
    rewrite (bool_decide_eq_false_2 (Some (VStr "completed") = _)) by done.
    rewrite bool_decide_eq_true_2; [reflexivity|].
    rewrite Object_keys_elem, Hdone. eauto.
Qed.

(** C3: whatever the document client is, when its write fails with an
    error, [_storeGranuleRecord] resolves with [undefined] and throws
    nothing exactly when the name of the error contains
    [ConditionalCheckFailedException], the name of the rejection of a
    conditional write; when the error has no name, or a name in which that
    text does not occur, that very error is thrown; the store is left as
    the client left it. *)
Theorem rejected_write_is_silent {S : Type}
    (dynamodbDocClient : DocumentClient S) (granuleRecord : Item)
    (s s' : S) (error : Error) :
  Dynamo.update dynamodbDocClient
    (_storeGranuleRecord_updateParams granuleRecord) s = (s', inl error) →
  _storeGranuleRecord dynamodbDocClient granuleRecord s
  = (s', match error_name error with
         | Some name =>
             if includes name "ConditionalCheckFailedException"
             then inr None
             else inl error
         | None => inl error
         end)
  ∧ ((∃ name pre post,
        error_name error = Some name
        ∧ name = pre +:+ "ConditionalCheckFailedException" +:+ post) →
     _storeGranuleRecord dynamodbDocClient granuleRecord s = (s', inr None))
  ∧ ((∀ name pre post,
        error_name error = Some name →
        name ≠ pre +:+ "ConditionalCheckFailedException" +:+ post) →
     _storeGranuleRecord dynamodbDocClient granuleRecord s = (s', inl error)).
Proof.
  intros Hupdate.
  assert (Hrun : _storeGranuleRecord dynamodbDocClient granuleRecord s
            = (s', match error_name error with
                   | Some name =>
                       if includes name "ConditionalCheckFailedException"
                       then inr None
                       else inl error
                   | None => inl error
                   end)).
  { unfold _storeGranuleRecord, try_catch, await. rewrite Hupdate.
    unfold isConditionalCheckFailed.
    destruct (error_name error) as [name|]; [|reflexivity].
    destruct name as [|c name]; [reflexivity|]. cbn [String.eqb negb andb].
    by destruct (includes _ _). }
  split; [exact Hrun|]. split.
  - intros (name & pre & post & Hname & Hocc). rewrite Hrun, Hname.
    rewrite (proj2 (includes_occurs name "ConditionalCheckFailedException"
                      ltac:(discriminate))); [reflexivity | eauto].
  - intros Hnone. rewrite Hrun.
    destruct (error_name error) as [name|] eqn:Hname; [|reflexivity].
    destruct (includes name "ConditionalCheckFailedException") eqn:Hinc;
      [|reflexivity].
    apply includes_occurs in Hinc as (pre & post & Hocc); [|discriminate].
    by destruct (Hnone name pre post).
Qed.

(** C4: the write of an incoming record over an existing one is applied
    only if the existing record has no [createdAt] or the incoming
    [createdAt] is greater than or equal to it; an incoming record whose
    [createdAt] is strictly older than the stored one is rejected and the
    table is left unchanged, whatever the statuses are. *)
Theorem createdAt_non_regression
    (granuleRecord old : Item) (table : Table) (k : string) :
  table !! k = Some old →
  granuleRecord !! "granuleId" = Some (VStr k) →
  (∀ table' out,
     _storeGranuleRecord dynamodb granuleRecord table = (table', inr (Some out)) →
     old !! "createdAt" = None
     ∨ ∃ vi ve, granuleRecord !! "createdAt" = Some vi
                ∧ old !! "createdAt" = Some ve ∧ value_ge vi ve = true)
  ∧ (∀ ci ce,
       granuleRecord !! "createdAt" = Some (VNum ci) →
       old !! "createdAt" = Some (VNum ce) →
       (ci < ce)%Z →
       _storeGranuleRecord dynamodb granuleRecord table = (table, inr None)).
Proof.
  intros Hold Hk. split.
  - intros table' out Hrun.
    destruct (storeGranuleRecord_applied _ _ _ _ _ Hk Hrun) as (Hge & _ & _).
    rewrite Hold in Hge. cbn [from_option id] in Hge.
    unfold createdAt_not_older in Hge.
    destruct (old !! "createdAt") as [ve|]; [|by left]. right.
    cbn [defined negb orb] in Hge.
    destruct (granuleRecord !! "createdAt") as [vi|]; [|discriminate Hge].
    by exists vi, ve.
  - intros ci ce Hc Hce Hlt.
    destruct (storeGranuleRecord_dynamodb granuleRecord table k (VNum ci) Hk Hc)
      as (new & _ & Heq).
    rewrite Hold in Heq. cbn [from_option id] in Heq. rewrite Heq.
    unfold createdAt_not_older. rewrite Hc, Hce.
    cbn [defined negb orb compare_ge value_ge].
    apply Z.leb_gt in Hlt. by rewrite Hlt.
Qed.

(** C6: deleting a granule whose [published] flag is set fails with
    [DeletePublishedGranule] and leaves the store exactly as it was,
    whatever the document client would have done with a request; a
    granule whose flag is not set is deleted from the table. *)
Theorem published_granule_delete_guard (granule : Item) :
  (∀ (S : Type) (dynamodbDocClient : DocumentClient S) (s : S),
     truthy (granule !! "published") = true →
     ∃ message,
       Granules.delete dynamodbDocClient granule s
       = (s, inl (DeletePublishedGranule message)))
  ∧ (∀ (table : Table) (k : string),
       truthy (granule !! "published") = false →
       granule !! "granuleId" = Some (VStr k) →
       ∃ out,
         Granules.delete dynamodb granule table = (base.delete k table, inr out)
         ∧ base.delete k table !! k = None).
Proof.
  split.
  - intros S client s Hpub. unfold Granules.delete. rewrite Hpub.
    eexists. reflexivity.
  - intros table k Hpub Hk. unfold Granules.delete. rewrite Hpub.
    unfold _deleteRecord, Manager_delete, granuleId_key. rewrite Hk.
    cbn [Dynamo.delete dynamodb]. unfold table_delete.
    rewrite lookup_singleton_eq. eexists. split; [reflexivity|].
    apply lookup_delete_eq.
Qed.

(** C9: for a stored granule that is [running] with execution [E], an
    upsert that is [running] with the same execution [E] is rejected by the
    conditional write: the table is unchanged and the call resolves with
    [undefined]. *)
Theorem duplicate_running_delivery_is_noop
    (granuleRecord old : Item) (table : Table) (k : string) (E c : Value) :
  table !! k = Some old →
  old !! "status" = Some (VStr "running") →
  old !! "execution" = Some E →
  granuleRecord !! "granuleId" = Some (VStr k) →
  granuleRecord !! "status" = Some (VStr "running") →
  granuleRecord !! "execution" = Some E →
  granuleRecord !! "createdAt" = Some c →
  _storeGranuleRecord dynamodb granuleRecord table = (table, inr None).
Proof.
  intros Hold _ HE Hk Hrun HE' Hc.
  destruct (storeGranuleRecord_dynamodb granuleRecord table k c Hk Hc)
    as (new & _ & Heq).
  rewrite Hold in Heq. cbn [from_option id] in Heq. rewrite Heq.
  unfold execution_changed. rewrite Hrun, HE, HE'.
  rewrite bool_decide_eq_true_2 by done. cbn [defined andb].
  unfold compare_ne. rewrite bool_decide_eq_true_2 by done.
  by rewrite andb_false_r.
Qed.

(** C10: the fields writable by a [running] record are exactly
    [createdAt], [updatedAt], [timestamp], [status] and [execution]; for a
    record with any other status every field of the record is writable.
    As [status] is writable, a [running] upsert that the store applies
    leaves the stored status [running]. *)
Theorem mutable_field_allow_list (granuleRecord : Item) :
  (granuleRecord !! "status" = Some (VStr "running") →
   _getMutableFieldNames granuleRecord
   = ["createdAt"; "updatedAt"; "timestamp"; "status"; "execution"])
  ∧ (granuleRecord !! "status" ≠ Some (VStr "running") →
     ∀ f, f ∈ _getMutableFieldNames granuleRecord
          ↔ is_Some (granuleRecord !! f))
  ∧ (∀ (table table' : Table) (k : string) out,
       granuleRecord !! "status" = Some (VStr "running") →
       granuleRecord !! "granuleId" = Some (VStr k) →
       _storeGranuleRecord dynamodb granuleRecord table
       = (table', inr (Some out)) →
       table' !! k ≫= (.!! "status") = Some (VStr "running")).
Proof.
  split; [|split].
  - intros Hrun. unfold _getMutableFieldNames.
    by rewrite bool_decide_eq_true_2.
  - intros Hrun f. unfold _getMutableFieldNames.
    rewrite bool_decide_eq_false_2 by done. apply Object_keys_elem.
  - intros table table' k out Hrun Hk Hstore.
    destruct (storeGranuleRecord_applied _ _ _ _ _ Hk Hstore)
      as (_ & _ & new & -> & Hlook).
    rewrite lookup_insert_eq. cbn [mbind option_bind].
    rewrite Hlook. unfold written_attribute.
    rewrite fields_lookup, Hrun.
    rewrite bool_decide_eq_false_2 by done.
    unfold _getMutableFieldNames. rewrite Hrun.
    rewrite (bool_decide_eq_true_2 (Some (VStr "running") = _)) by done.
    rewrite bool_decide_eq_true_2; [reflexivity|].
    set_solver.
Qed.

End GranuleClaims.

(** ** The query search client *)

Section QuerySearchFacts.

Import QuerySearch.

Context {RecordType : Type}.
Implicit Types (c : Client RecordType) (results : list RecordType).

Lemma consistent_new results B : consistent results B (new results B).
Proof.
  unfold consistent, new; simpl. repeat split; try discriminate.
  by exists 0.
Qed.

Lemma head_take_drop results n o r rest :
  r :: rest = take n (drop o results) →
  results !! o = Some r ∧ rest = take (pred n) (drop (o + 1) results).
Proof.
  intros H. destruct n as [|n]; [discriminate H|].
  destruct (drop o results) as [|x l] eqn:Hd; [discriminate H|].
  simpl in H. injection H as -> ->.
  assert (Hx : results !! o = Some x).
  { rewrite <- (Nat.add_0_r o), <- lookup_drop, Hd. reflexivity. }
  split; [exact Hx|]. simpl.
  rewrite <- drop_drop, Hd. reflexivity.
Qed.

Lemma take_nil_inv {A} (l : list A) B :
  (1 ≤ B)%nat → take B l = [] → l = [].
Proof. destruct B; [lia|]. by destruct l. Qed.

Lemma head_take {A} (l : list A) B :
  (1 ≤ B)%nat → head (take B l) = head l.
Proof. destruct B; [lia|]. by destruct l. Qed.

Lemma head_drop {A} (l : list A) o : head (drop o l) = l !! o.
Proof. by rewrite head_lookup, lookup_drop, Nat.add_0_r. Qed.

Lemma fetchRecords_spec results B c :
  (1 ≤ B)%nat → query c = results → limit c = B →
  consistent results B (fetchRecords c)
  ∧ head (records (fetchRecords c)) = results !! offset c.
Proof.
  intros HB Hq Hl. unfold consistent, fetchRecords.
  cbn [query limit records offset exhausted]. rewrite Hq, Hl.
  split.
  - split; [done|]. split; [done|]. split; [by exists B|].
    destruct (take B (drop (offset c) results)) eqn:Ht; [|discriminate].
    intros _. split; [done|].
    apply take_nil_inv in Ht; [|done].
    apply (f_equal length) in Ht. rewrite length_drop in Ht.
    simpl in Ht. lia.
  - by rewrite head_take, head_drop.
Qed.

Lemma fillIfEmpty_spec results B c :
  (1 ≤ B)%nat → consistent results B c →
  let c' := fillIfEmpty c in
  consistent results B c'
  ∧ offset c' = offset c
  ∧ head (records c') = results !! offset c.
Proof.
  intros HB Hc. unfold fillIfEmpty.
  destruct (needsFetch c) eqn:Hneed; cbv zeta.
  - destruct Hc as (Hq & Hl & _).
    destruct (fetchRecords_spec results B c HB Hq Hl) as [H1 H2].
    split; [exact H1|]. split; [reflexivity | exact H2].
  - split; [done|]. split; [done|].
    destruct Hc as (Hq & Hl & [n Hn] & Hex). unfold needsFetch in Hneed.
    destruct (records c) as [|r rest] eqn:Hrec.
    + apply negb_false_iff in Hneed. destruct (Hex Hneed) as [_ Hlen].
      symmetry. by apply lookup_ge_None.
    + symmetry. by apply (head_take_drop _ n _ _ rest).
Qed.

Lemma peek_spec results B c :
  (1 ≤ B)%nat → consistent results B c →
  (peek c).1 = results !! offset c
  ∧ consistent results B (peek c).2
  ∧ offset (peek c).2 = offset c.
Proof.
  intros HB Hc. destruct (fillIfEmpty_spec results B c HB Hc) as (H1 & H2 & H3).
  unfold peek. simpl. auto.
Qed.

Lemma shift_spec results B c :
  (1 ≤ B)%nat → consistent results B c →
  (shift c).1 = results !! offset c
  ∧ consistent results B (shift c).2
  ∧ offset (shift c).2 =
      offset c + (if defined (results !! offset c) then 1 else 0).
Proof.
  intros HB Hc. destruct (fillIfEmpty_spec results B c HB Hc) as (H1 & H2 & H3).
  cbv zeta in *. unfold shift.
  destruct (records (fillIfEmpty c)) as [|r rest] eqn:Hrec; cbn [fst snd].
  - simpl in H3. rewrite <- H3. simpl. split; [done|]. split; [done|]. lia.
  - simpl in H3. rewrite <- H3. cbn [defined offset].
    split; [done|]. split; [|lia].
    destruct H1 as (Hq & Hl & [n Hn] & Hex). rewrite Hrec in Hn.
    apply head_take_drop in Hn as [_ Hrest].
    unfold consistent; cbn [query limit records offset exhausted].
    split; [done|]. split; [done|]. split.
    + by exists (pred n).
    + intros He. destruct (Hex He) as [Hnil _]. congruence.
Qed.

Lemma lookup_seq_past results k n :
  (length results ≤ k)%nat →
  (λ i, results !! i) <$> seq k n = replicate n None.
Proof.
  revert k. induction n as [|n IH]; intros k Hk; [reflexivity|].
  cbn [seq fmap list_fmap replicate]. rewrite lookup_ge_None_2 by done.
  f_equal. apply IH. lia.
Qed.

Lemma count_shifts_cons (op : Call) (ops : list Call) :
  count_shifts (op :: ops)
  = (match op with call_shift => 1 | call_peek => 0 end + count_shifts ops)%nat.
Proof. by destruct op. Qed.

Lemma calls_spec results B (ops : list Call) c :
  (1 ≤ B)%nat → consistent results B c → (offset c ≤ length results)%nat →
  shifted (calls ops c).1
  = (λ i, results !! i) <$> seq (offset c) (count_shifts ops)
  ∧ offset (calls ops c).2
    = (offset c + count_shifts ops) `min` length results.
Proof.
  intros HB. revert c. induction ops as [|op ops IH]; intros c Hc Hoff.
  - cbn. split; [reflexivity|]. unfold count_shifts. simpl. lia.
  - rewrite count_shifts_cons. cbn [calls].
    destruct (call op c) as [answer c1] eqn:Hcall.
    destruct (calls ops c1) as [answers c2] eqn:Hcalls.
    cbn [fst snd]. destruct op; cbn [call] in Hcall.
    + destruct (peek_spec results B c HB Hc) as (_ & Hc1 & Ho1).
      rewrite Hcall in Hc1, Ho1. cbn [snd] in Hc1, Ho1.
      destruct (IH c1 Hc1) as [IH1 IH2]; [lia|].
      rewrite Hcalls in IH1, IH2. cbn [fst snd] in IH1, IH2.
      rewrite Ho1 in IH1, IH2. split; [exact IH1 | exact IH2].
    + destruct (shift_spec results B c HB Hc) as (Ha & Hc1 & Ho1).
      rewrite Hcall in Ha, Hc1, Ho1. cbn [fst snd] in Ha, Hc1, Ho1.
      assert (Hle1 : (offset c1 ≤ length results)%nat).
      { rewrite Ho1. destruct (results !! offset c) eqn:Hr; cbn [defined]; [|lia].
        apply lookup_lt_Some in Hr. lia. }
      destruct (IH c1 Hc1 Hle1) as [IH1 IH2].
      rewrite Hcalls in IH1, IH2. cbn [fst snd] in IH1, IH2.
      unfold shifted in *. cbn [List.filter fst fmap list_fmap snd].
      cbn [seq Nat.add fmap list_fmap]. rewrite <- Ha.
      change (list_fmap _ _ snd ?l) with (snd <$> l).
      change (list_fmap _ _ ?f (seq ?a ?b)) with (f <$> seq a b).
      rewrite IH1, IH2, Ho1.
      destruct (results !! offset c) eqn:Hr; cbn [defined].
      * rewrite Ha. split; [by rewrite Nat.add_1_r | lia].
      * apply lookup_ge_None in Hr. rewrite Ha.
        rewrite Nat.add_0_r, !lookup_seq_past by lia. split; [done | lia].
Qed.

Lemma shiftAll_spec results B fuel c :
  (1 ≤ B)%nat → consistent results B c → (offset c ≤ length results)%nat →
  (length results - offset c < fuel)%nat →
  ∃ c', shiftAll fuel c = Some (drop (offset c) results, c').
Proof.
  intros HB. revert c. induction fuel as [|fuel IH]; intros c Hc Hoff Hfuel;
    [lia|].
  cbn [shiftAll].
  destruct (shift_spec results B c HB Hc) as (Ha & Hc1 & Ho1).
  destruct (shift c) as [answer c1]. cbn [fst snd] in Ha, Hc1, Ho1.
  subst answer. destruct (results !! offset c) as [r|] eqn:Hr;
    cbn [defined] in Ho1.
  - pose proof (lookup_lt_Some _ _ _ Hr) as Hlt.
    destruct (IH c1 Hc1) as [c' Hc']; [lia | lia |].
    rewrite Hc', Ho1, Nat.add_1_r. exists c'.
    by rewrite (drop_S _ _ _ Hr).
  - apply lookup_ge_None in Hr. exists c1. by rewrite drop_ge.
Qed.

Lemma pageThrough_spec results B fuel c :
  (1 ≤ B)%nat → consistent results B c → (offset c ≤ length results)%nat →
  (length results - offset c < fuel)%nat →
  ∃ c', pageThrough fuel c = Some (drop (offset c) results, c').
Proof.
  intros HB. revert c. induction fuel as [|fuel IH]; intros c Hc Hoff Hfuel;
    [lia|].
  cbn [pageThrough].
  destruct (peek_spec results B c HB Hc) as (Hp & Hc0 & Ho0).
  destruct (peek c) as [next c0]. cbn [fst snd] in Hp, Hc0, Ho0.
  subst next. destruct (results !! offset c) as [r|] eqn:Hr.
  - destruct (shift_spec results B c0 HB Hc0) as (Ha & Hc1 & Ho1).
    destruct (shift c0) as [answer c1]. cbn [fst snd] in Ha, Hc1, Ho1.
    rewrite Ho0, Hr in Ha, Ho1. cbn [defined] in Ho1. subst answer.
    pose proof (lookup_lt_Some _ _ _ Hr) as Hlt.
    destruct (IH c1 Hc1) as [c' Hc']; [lia | lia |].
    rewrite Hc', Ho1, Nat.add_1_r. exists c'.
    by rewrite (drop_S _ _ _ Hr).
  - apply lookup_ge_None in Hr. exists c0. by rewrite drop_ge.
Qed.

Lemma call_fetches c (op : Call) :
  fetches (call op c).2
  = (fetches c ++ if needsFetch c then [(offset c, limit c)] else [])%list.
Proof.
  destruct op; unfold call, peek, shift, fillIfEmpty;
    destruct (needsFetch c) eqn:Hn; cbv zeta.
  - reflexivity.
  - by rewrite app_nil_r.
  - by destruct (records (fetchRecords c)).
  - rewrite app_nil_r. by destruct (records c).
Qed.

Lemma exhausted_stable c (op : Call) :
  records c = [] → exhausted c = true → call op c = (None, c).
Proof.
  intros Hr He.
  destruct op; unfold call, peek, shift, fillIfEmpty, needsFetch;
    rewrite Hr, He; cbn; by rewrite Hr.
Qed.

Lemma none_exhausted c (op : Call) :
  (call op c).1 = None →
  records (call op c).2 = [] ∧ exhausted (call op c).2 = true.
Proof.
  destruct op; unfold call, peek, shift, fillIfEmpty, needsFetch.
  - destruct (records c) as [|r rest] eqn:Hr.
    + destruct (exhausted c) eqn:He; cbn [negb fst snd].
      * by rewrite Hr.
      * unfold fetchRecords; cbn [records exhausted].
        by destruct (take _ _).
    + cbn [fst snd]. rewrite Hr. discriminate.
  - destruct (records c) as [|r rest] eqn:Hr.
    + destruct (exhausted c) eqn:He; cbn [negb].
      * by rewrite Hr.
      * unfold fetchRecords; cbn [records exhausted].
        by destruct (take _ _).
    + rewrite Hr. discriminate.
Qed.

Lemma calls_consistent results B (ops : list Call) c :
  (1 ≤ B)%nat → consistent results B c →
  consistent results B (calls ops c).2.
Proof.
  intros HB. revert c. induction ops as [|op ops IH]; intros c Hc; [exact Hc|].
  cbn [calls]. destruct (call op c) as [answer c1] eqn:Hcall.
  specialize (IH c1). destruct (calls ops c1) as [answers c2].
  cbn [snd] in *. apply IH. destruct op; cbn [call] in Hcall.
  - destruct (peek_spec results B c HB Hc) as (_ & Hc1 & _).
    by rewrite Hcall in Hc1.
  - destruct (shift_spec results B c HB Hc) as (_ & Hc1 & _).
    by rewrite Hcall in Hc1.
Qed.

Lemma calls_exhausted (ops : list Call) c :
  records c = [] → exhausted c = true →
  Forall (λ a, a.2 = None) (calls ops c).1 ∧ (calls ops c).2 = c.
Proof.
  intros Hr He. induction ops as [|op ops [IH1 IH2]]; [by split|].
  cbn [calls]. rewrite (exhausted_stable c op Hr He).
  destruct (calls ops c) as [answers c']. cbn [fst snd] in *.
  split; [by constructor | exact IH2].
Qed.

(** C2: for a result of [N] records and a batch size [B >= 1], in any
    sequence of [peek] and [shift] calls on a new client the [i]-th [shift]
    answers the [i]-th record of the result and "none" past the end, and
    the offset is the number of records consumed; [shift] repeated until
    "none", with or without a [peek] before each call, returns exactly the
    result, in order.  At any point of a run a call issues one fetch, with
    LIMIT [B] at the current offset, when the buffer is empty and the
    sequence is not known to be exhausted, and no fetch otherwise; three
    records paged with [B = 1] make four fetches, at offsets 0, 1, 2, 3. *)
Theorem cursor_completeness_no_duplication results (B : nat) :
  (1 ≤ B)%nat →
  (∀ ops : list Call,
     let run := calls ops (new results B) in
     shifted run.1 = (λ i, results !! i) <$> seq 0 (count_shifts ops)
     ∧ offset run.2 = count_shifts ops `min` length results
     ∧ ∀ op : Call,
         fetches (call op run.2).2
         = (fetches run.2
            ++ if needsFetch run.2 then [(offset run.2, B)] else [])%list)
  ∧ (∃ c, shiftAll (S (length results)) (new results B) = Some (results, c))
  ∧ (∃ c, pageThrough (S (length results)) (new results B) = Some (results, c))
  ∧ (∀ r1 r2 r3 : RecordType,
       (λ x, fetches x.2) <$> pageThrough 4 (new [r1; r2; r3] 1)
       = Some [(0, 1); (1, 1); (2, 1); (3, 1)]).
Proof.
  intros HB. pose proof (consistent_new results B) as Hnew.
  split; [|split; [|split]].
  - intros ops run. subst run.
    destruct (calls_spec results B ops (new results B) HB Hnew) as [H1 H2];
      [cbn; lia|].
    split; [exact H1|]. split; [exact H2|].
    intros op. rewrite call_fetches.
    destruct (calls_consistent results B ops _ HB Hnew) as (_ & -> & _).
    reflexivity.
  - destruct (shiftAll_spec results B (S (length results)) (new results B)
                HB Hnew) as [c Hc]; [cbn; lia | cbn; lia |].
    exists c. exact Hc.
  - destruct (pageThrough_spec results B (S (length results)) (new results B)
                HB Hnew) as [c Hc]; [cbn; lia | cbn; lia |].
    exists c. exact Hc.
  - intros r1 r2 r3. reflexivity.
Qed.

(** C5: once a [peek] or a [shift] has answered "none", the client is
    marked exhausted with an empty buffer, and every later [peek] and
    [shift] answers "none" too and leaves the client as it is: no further
    query is issued. *)
Theorem cursor_exhaustion_stability c (op : Call) :
  (call op c).1 = None →
  let c' := (call op c).2 in
  records c' = [] ∧ exhausted c' = true
  ∧ ∀ ops : list Call,
      Forall (λ a, a.2 = None) (calls ops c').1
      ∧ (calls ops c').2 = c'
      ∧ fetches (calls ops c').2 = fetches c'.
Proof.
  intros Hnone c'. destruct (none_exhausted c op Hnone) as [Hr He].
  split; [exact Hr|]. split; [exact He|]. intros ops.
  destruct (calls_exhausted ops c' Hr He) as [H1 H2].
  split; [exact H1|]. split; [exact H2 | by rewrite H2].
Qed.

End QuerySearchFacts.

(** ** Concrete runs *)

(** C1 as stated fails on both halves.  A stored [completed] granule is set
    back to [running] by a [running] upsert that carries another execution
    and a [createdAt] that is not older; a stored [running] granule stays
    [running] under a [completed] upsert whose [createdAt] is older. *)
Lemma completed_granule_overwritten_by_running :
  (Granules._storeGranuleRecord Dynamo.dynamodb
     (Sample.granule "running" 2 "e2" 0)
     (Sample.table (Sample.granule "completed" 1 "e1" 7))).1
    !! "g1" ≫= (.!! "status") = Some (VStr "running")
  ∧ (Granules._storeGranuleRecord Dynamo.dynamodb
       (Sample.granule "completed" 1 "e1" 7)
       (Sample.table (Sample.granule "running" 5 "e1" 0))).1
      !! "g1" ≫= (.!! "status") = Some (VStr "running").
Proof. split; vm_compute; reflexivity. Qed.

Lemma granule_status_monotonicity_witness :
  (∃ table',
     Granules._storeGranuleRecord Dynamo.dynamodb
       (Sample.granule "running" 9 "e1" 0)
       (Sample.table (Sample.granule "completed" 5 "e1" 7))
     = (table', inr None)
     ∧ table' !! "g1" ≫= (.!! "status") = Some (VStr "completed"))
  ∧ (∃ table' out,
       Granules._storeGranuleRecord Dynamo.dynamodb
         (Sample.granule "completed" 9 "e1" 7)
         (Sample.table (Sample.granule "running" 5 "e1" 0))
       = (table', inr (Some out))
       ∧ table' !! "g1" ≫= (.!! "status") = Some (VStr "completed")).
Proof.
  split.
  - apply (proj1 (granule_status_monotonicity
                    (Sample.granule "running" 9 "e1" 0)
                    (Sample.granule "completed" 5 "e1" 7)
                    (Sample.table (Sample.granule "completed" 5 "e1" 7))
                    "g1" 9 eq_refl eq_refl eq_refl));
      [reflexivity | reflexivity |].
    left. exists (VStr "e1"). split; reflexivity.
  - apply (proj2 (granule_status_monotonicity
                    (Sample.granule "completed" 9 "e1" 7)
                    (Sample.granule "running" 5 "e1" 0)
                    (Sample.table (Sample.granule "running" 5 "e1" 0))
                    "g1" 9 eq_refl eq_refl eq_refl));
      [reflexivity | reflexivity |].
    right. exists 5%Z. split; [reflexivity | lia].
Defined.

Lemma rejected_write_is_silent_witness :
  Granules._storeGranuleRecord Dynamo.dynamodb
    (Sample.granule "running" 1 "e1" 0)
    (Sample.table (Sample.granule "running" 1 "e1" 0))
  = (Sample.table (Sample.granule "running" 1 "e1" 0), inr None)
  ∧ Granules._storeGranuleRecord
      (Dynamo.failing
         (Thrown (Some "ProvisionedThroughputExceededException")
            "Rate exceeded"))
      (Sample.granule "running" 1 "e1" 0)
      (Sample.table (Sample.granule "running" 1 "e1" 0))
    = (Sample.table (Sample.granule "running" 1 "e1" 0),
       inl (Thrown (Some "ProvisionedThroughputExceededException")
              "Rate exceeded")).
Proof.
  split.
  - apply (proj1 (proj2 (rejected_write_is_silent Dynamo.dynamodb
                    (Sample.granule "running" 1 "e1" 0)
                    (Sample.table (Sample.granule "running" 1 "e1" 0))
                    (Sample.table (Sample.granule "running" 1 "e1" 0))
                    Dynamo.ConditionalCheckFailedException
                    ltac:(vm_compute; reflexivity)))).
    exists "ConditionalCheckFailedException", "", "". split; reflexivity.
  - apply (proj2 (proj2 (rejected_write_is_silent
                    (Dynamo.failing
                       (Thrown (Some "ProvisionedThroughputExceededException")
                          "Rate exceeded"))
                    (Sample.granule "running" 1 "e1" 0)
                    (Sample.table (Sample.granule "running" 1 "e1" 0))
                    (Sample.table (Sample.granule "running" 1 "e1" 0))
                    (Thrown (Some "ProvisionedThroughputExceededException")
                       "Rate exceeded")
                    eq_refl))).
    intros name pre post Hname Hocc. injection Hname as <-.
    assert (Hinc : includes "ProvisionedThroughputExceededException"
                     "ConditionalCheckFailedException" = true).
    { apply includes_occurs; [discriminate | eauto]. }
    vm_compute in Hinc. discriminate Hinc.
Defined.

Lemma createdAt_non_regression_witness :
  Granules._storeGranuleRecord Dynamo.dynamodb
    (Sample.granule "completed" 1 "e1" 7)
    (Sample.table (Sample.granule "running" 5 "e1" 0))
  = (Sample.table (Sample.granule "running" 5 "e1" 0), inr None).
Proof.
  apply (proj2 (createdAt_non_regression
                  (Sample.granule "completed" 1 "e1" 7)
                  (Sample.granule "running" 5 "e1" 0)
                  (Sample.table (Sample.granule "running" 5 "e1" 0))
                  "g1" eq_refl eq_refl) 1%Z 5%Z);
    [reflexivity | reflexivity | lia].
Defined.

Lemma published_granule_delete_guard_witness :
  (∃ message,
     Granules.delete Dynamo.dynamodb (Sample.published true)
       (Sample.table (Sample.published true))
     = (Sample.table (Sample.published true),
        inl (DeletePublishedGranule message)))
  ∧ (∃ out,
       Granules.delete Dynamo.dynamodb (Sample.published false)
         (Sample.table (Sample.published false))
       = (delete "g1" (Sample.table (Sample.published false)), inr out)
       ∧ delete "g1" (Sample.table (Sample.published false)) !! "g1" = None).
Proof.
  split.
  - apply (proj1 (published_granule_delete_guard (Sample.published true)));
      reflexivity.
  - apply (proj2 (published_granule_delete_guard (Sample.published false)));
      reflexivity.
Defined.

Lemma duplicate_running_delivery_is_noop_witness :
  Granules._storeGranuleRecord Dynamo.dynamodb
    (Sample.granule "running" 9 "e1" 0)
    (Sample.table (Sample.granule "running" 5 "e1" 7))
  = (Sample.table (Sample.granule "running" 5 "e1" 7), inr None).
Proof.
  apply (duplicate_running_delivery_is_noop
           (Sample.granule "running" 9 "e1" 0)
           (Sample.granule "running" 5 "e1" 7)
           (Sample.table (Sample.granule "running" 5 "e1" 7))
           "g1" (VStr "e1") (VNum 9));
    reflexivity.
Defined.

Lemma mutable_field_allow_list_witness :
  Granules._getMutableFieldNames (Sample.granule "running" 2 "e2" 0)
  = ["createdAt"; "updatedAt"; "timestamp"; "status"; "execution"]
  ∧ ("productVolume" ∈ Granules._getMutableFieldNames
                         (Sample.granule "completed" 2 "e2" 0)
     ↔ is_Some (Sample.granule "completed" 2 "e2" 0 !! "productVolume"))
  ∧ (Granules._storeGranuleRecord Dynamo.dynamodb
       (Sample.granule "running" 2 "e2" 0)
       (Sample.table (Sample.granule "completed" 1 "e1" 7))).1
      !! "g1" ≫= (.!! "status") = Some (VStr "running").
Proof.
  split; [|split].
  - apply (proj1 (mutable_field_allow_list (Sample.granule "running" 2 "e2" 0))).
    reflexivity.
  - apply (proj1 (proj2 (mutable_field_allow_list
                           (Sample.granule "completed" 2 "e2" 0)))).
    vm_compute. discriminate.
  - apply (proj2 (proj2 (mutable_field_allow_list
                           (Sample.granule "running" 2 "e2" 0)))
             (Sample.table (Sample.granule "completed" 1 "e1" 7))
             _ "g1" {| Dynamo.Attributes := None |});
      [reflexivity | reflexivity | vm_compute; reflexivity].
Defined.

Lemma cursor_completeness_no_duplication_witness :
  QuerySearch.shifted
    (QuerySearch.calls
       [QuerySearch.call_peek; QuerySearch.call_shift; QuerySearch.call_shift;
        QuerySearch.call_peek; QuerySearch.call_shift; QuerySearch.call_shift]
       (QuerySearch.new [10; 20; 30] 2)).1
  = [Some 10; Some 20; Some 30; None]
  ∧ ∃ c, QuerySearch.shiftAll 4 (QuerySearch.new [10; 20; 30] 2)
         = Some ([10; 20; 30], c).
Proof.
  assert (H : (1 ≤ 2)%nat) by lia.
  split.
  - exact (proj1 (proj1 (cursor_completeness_no_duplication [10; 20; 30] 2 H)
                    [QuerySearch.call_peek; QuerySearch.call_shift;
                     QuerySearch.call_shift; QuerySearch.call_peek;
                     QuerySearch.call_shift; QuerySearch.call_shift])).
  - exact (proj1 (proj2 (cursor_completeness_no_duplication [10; 20; 30] 2 H))).
Defined.

Lemma cursor_exhaustion_stability_witness :
  Forall (λ a, a.2 = None)
    (QuerySearch.calls [QuerySearch.call_shift; QuerySearch.call_peek]
       (QuerySearch.peek (QuerySearch.new ([] : list nat) 1)).2).1
  ∧ QuerySearch.fetches
      (QuerySearch.calls [QuerySearch.call_shift; QuerySearch.call_peek]
         (QuerySearch.peek (QuerySearch.new ([] : list nat) 1)).2).2
    = [(0, 1)].
Proof.
  pose proof (cursor_exhaustion_stability
                (QuerySearch.new ([] : list nat) 1) QuerySearch.call_peek
                eq_refl) as (_ & _ & H).
  destruct (H [QuerySearch.call_shift; QuerySearch.call_peek]) as (H1 & _ & H3).
  split; [exact H1 | exact H3].
Defined.

(** The scenarios of the [QuerySearchClient] tests, with the offsets and
    limits that the spies see. *)
Example test_shift_fetches_next_record :
  let '(first, c) := QuerySearch.shift (QuerySearch.new ["f0"; "f1"] 1) in
  let '(second, c) := QuerySearch.shift c in
  (first, second, QuerySearch.fetches c)
  = (Some "f0", Some "f1", [(0, 1); (1, 1)]).
Proof. reflexivity. Qed.

Example test_peek_fetches_next_record :
  let '(first, c) := QuerySearch.peek (QuerySearch.new ["f0"; "f1"] 1) in
  let '(_, c) := QuerySearch.shift c in
  let '(second, c) := QuerySearch.peek c in
  (first, second, QuerySearch.fetches c)
  = (Some "f0", Some "f1", [(0, 1); (1, 1)]).
Proof. reflexivity. Qed.

Example test_peek_on_empty_result :
  (QuerySearch.peek (QuerySearch.new ([] : list string) 1)).1 = None.
Proof. reflexivity. Qed.

Example test_pages_through_results :
  (λ x, (x.1, QuerySearch.fetches x.2))
    <$> QuerySearch.pageThrough 4 (QuerySearch.new ["f0"; "f1"; "f2"] 1)
  = Some (["f0"; "f1"; "f2"], [(0, 1); (1, 1); (2, 1); (3, 1)]).
Proof. reflexivity. Qed.

(** A record without [createdAt] is not a conditional-check failure: the
    request is invalid and the error reaches the caller. *)
Example store_without_createdAt :
  Granules._storeGranuleRecord Dynamo.dynamodb
    (delete "createdAt" (Sample.granule "running" 1 "e1" 0)) ∅
  = (∅, inl Dynamo.ValidationException).
Proof. vm_compute. reflexivity. Qed.

(** * Further properties *)

(** ** The generic Postgres model: [get], [search], [delete] *)

Section PgExtras.

Import Pg.

Variable tableName : tableNames.

Lemma head_filter_split {A} (f : A → bool) (l : list A) :
  match head (List.filter f l) with
  | Some x =>
      f x = true
      ∧ ∃ before after,
          l = (before ++ x :: after)%list
          ∧ Forall (λ y, f y = false) before
  | None => Forall (λ y, f y = false) l
  end.
Proof.
  induction l as [|y l IH]; simpl; [constructor|].
  destruct (f y) eqn:Hy; simpl.
  - split; [exact Hy|]. exists [], l. split; [reflexivity | constructor].
  - destruct (head (List.filter f l)) as [x|].
    + destruct IH as (Hx & before & after & -> & Hb).
      split; [exact Hx|]. exists (y :: before), after.
      split; [reflexivity | by constructor].
    + by constructor.
Qed.

Lemma matches_spec (params row : Row) :
  matches params row = true
  ↔ ∀ column v, params !! column = Some v → row !! column = Some v.
Proof.
  unfold matches. rewrite bool_decide_eq_true. apply map_Forall_lookup.
Qed.

(** X1: on a healthy database [get] leaves the database as it is and
    returns the first row of the table, in table order, that carries every
    column of the filter with the value asked for; it fails, with
    [RecordDoesNotExist], exactly when no row of the table matches. *)
Theorem get_returns_first_match (params : Row) (db : Db) :
  match get tableName postgres params db with
  | (db', inr r) =>
      db' = db
      ∧ params ⊆ r
      ∧ ∃ before after,
          table_rows db tableName = (before ++ r :: after)%list
          ∧ Forall (λ row, matches params row = false) before
  | (db', inl e) =>
      db' = db
      ∧ e = RecordDoesNotExist tableName params
      ∧ Forall (λ row, matches params row = false) (table_rows db tableName)
  end.
Proof.
  rewrite get_postgres.
  pose proof (head_filter_split (matches params) (table_rows db tableName)) as H.
  destruct (head _) as [r|].
  - destruct H as [Hr H]. split; [reflexivity|]. split; [|exact H].
    apply map_subseteq_spec. by apply matches_spec.
  - by repeat split.
Qed.

Lemma filter_filter_comm {A} (f g : A → bool) (l : list A) :
  List.filter f (List.filter g l) = List.filter g (List.filter f l).
Proof.
  induction l as [|x l IH]; simpl; [reflexivity|].
  destruct (f x) eqn:Hf, (g x) eqn:Hg; simpl; rewrite ?Hf, ?Hg, IH; reflexivity.
Qed.

Lemma filter_negb_filter {A} (f : A → bool) (l : list A) :
  List.filter (λ x, negb (f x)) (List.filter f l) = [].
Proof.
  induction l as [|x l IH]; simpl; [reflexivity|].
  destruct (f x) eqn:Hx; simpl; [by rewrite Hx | exact IH].
Qed.

Lemma search_postgres params db :
  search tableName postgres params db
  = (db, inr (List.filter (matches params) (table_rows db tableName))).
Proof.
  unfold search, await, resolve; simpl. do 2 f_equal.
  apply filter_ext. intros row. apply holds_where.
Qed.

(** X2: on a healthy database [delete] answers the number of rows that
    [search] finds for the same filter; after it [search] finds nothing for
    that filter, finds for any other filter what it found before except the
    deleted rows, and the other tables are untouched. *)
Theorem delete_removes_what_search_finds (params : Row) (db : Db) :
  ∃ (found : list Row) (db' : Db),
    search tableName postgres params db = (db, inr found)
    ∧ Pg.delete tableName postgres params db = (db', inr (length found))
    ∧ search tableName postgres params db' = (db', inr [])
    ∧ (∀ params' rows,
         search tableName postgres params' db = (db, inr rows) →
         search tableName postgres params' db'
         = (db', inr (List.filter (λ row, negb (matches params row)) rows)))
    ∧ (∀ t, t ≠ tableName → table_rows db' t = table_rows db t).
Proof.
  eexists _, _. split; [apply search_postgres|].
  assert (Hrows : table_rows
            (<[tableName := List.filter (λ row, negb (matches params row))
                              (table_rows db tableName)]> db) tableName
          = List.filter (λ row, negb (matches params row)) (table_rows db tableName)).
  { unfold table_rows at 1. by rewrite lookup_insert_eq. }
  assert (Hdel : Pg.delete tableName postgres params db
          = (<[tableName := List.filter (λ row, negb (matches params row))
                              (table_rows db tableName)]> db,
             inr (length (List.filter (matches params) (table_rows db tableName))))).
  { unfold Pg.delete; simpl. f_equal; [|f_equal; f_equal].
    - f_equal. apply filter_ext. intros row. by rewrite andb_true_r.
    - apply filter_ext. intros row. by rewrite andb_true_r. }
  split; [exact Hdel|]. split; [|split].
  - rewrite search_postgres, Hrows. do 2 f_equal.
    rewrite filter_filter_comm. apply filter_negb_filter.
  - intros params' rows Hs. rewrite search_postgres in Hs.
    injection Hs as <-. rewrite search_postgres, Hrows.
    do 2 f_equal. apply filter_filter_comm.
  - intros t Ht. unfold table_rows. by rewrite lookup_insert_ne.
Qed.

Lemma select_columns_lookup (row : Row) :
  select_columns ["cumulus_id"] row !! "cumulus_id" = row !! "cumulus_id".
Proof.
  unfold select_columns. apply option_eq. intros v.
  rewrite map_lookup_filter_Some. simpl.
  split; [by intros [? _] | intros ?; split; [done | by left]].
Qed.

(** X3: whatever the handle does, [getRecordCumulusId] resolves with the
    [cumulus_id] of the record that [get] resolves with for the same filter,
    and rejects with the same error when [get] rejects. *)
Theorem getRecordCumulusId_agrees_with_get
    (knexOrTransaction : Knex) (whereClause : Row) (db : Db) :
  match get tableName knexOrTransaction whereClause db with
  | (db', inr record) =>
      getRecordCumulusId tableName knexOrTransaction whereClause db
      = (db', inr (record !! "cumulus_id"))
  | (db', inl e) =>
      getRecordCumulusId tableName knexOrTransaction whereClause db
      = (db', inl e)
  end.
Proof.
  unfold get, getRecordCumulusId, await.
  destruct (knex_select knexOrTransaction tableName [where_ whereClause] db)
    as [db' [e|rows]]; [reflexivity|].
  destruct rows as [|r rows]; simpl; [reflexivity|].
  unfold resolve. by rewrite select_columns_lookup.
Qed.

End PgExtras.

(** ** The granule model: more of [_storeGranuleRecord] *)

Section GranuleExtras.

Import Dynamo Granules.

Lemma key_of_updateParams (granuleRecord : Item) :
  Key (_storeGranuleRecord_updateParams granuleRecord) !! "granuleId"
  = granuleRecord !! "granuleId".
Proof.
  unfold _storeGranuleRecord_updateParams.
  cbn [with_ConditionExpression Key _buildDocClientUpdateParams].
  unfold granuleId_key.
  destruct (granuleRecord !! "granuleId") as [v|] eqn:Hk.
  - by rewrite lookup_singleton_eq.
  - by rewrite lookup_empty.
Qed.

Lemma storeGranuleRecord_no_key (granuleRecord : Item) (table : Table) :
  (∀ k, granuleRecord !! "granuleId" ≠ Some (VStr k)) →
  _storeGranuleRecord dynamodb granuleRecord table
  = (table, inl ValidationException).
Proof.
  intros Hk. unfold _storeGranuleRecord, try_catch, await, resolve.
  cbn [Dynamo.update dynamodb]. unfold table_update.
  rewrite key_of_updateParams.
  destruct (granuleRecord !! "granuleId") as [[k| | |]|]; try reflexivity.
  by destruct (Hk k).
Qed.

(** The three outcomes of a write on a healthy table. *)
Lemma storeGranuleRecord_cases (granuleRecord : Item) (table : Table) :
  _storeGranuleRecord dynamodb granuleRecord table
    = (table, inl ValidationException)
    ∧ ((∀ k, granuleRecord !! "granuleId" ≠ Some (VStr k))
       ∨ granuleRecord !! "createdAt" = None)
  ∨ ∃ k c,
      granuleRecord !! "granuleId" = Some (VStr k)
      ∧ granuleRecord !! "createdAt" = Some c
      ∧ (_storeGranuleRecord dynamodb granuleRecord table = (table, inr None)
           ∧ createdAt_not_older granuleRecord (default ∅ (table !! k))
             && execution_changed granuleRecord (default ∅ (table !! k)) = false
         ∨ ∃ new : Item,
             _storeGranuleRecord dynamodb granuleRecord table
             = (<[k := new]> table, inr (Some {| Attributes := None |}))
             ∧ createdAt_not_older granuleRecord (default ∅ (table !! k))
               && execution_changed granuleRecord (default ∅ (table !! k)) = true
             ∧ ∀ g, new !! g
                    = written_attribute granuleRecord (default ∅ (table !! k)) g).
Proof.
  destruct (granuleRecord !! "granuleId") as [[k| | |]|] eqn:Hk;
    try (left; split; [apply storeGranuleRecord_no_key; intros k'; congruence
                      | left; intros k'; congruence]).
  destruct (granuleRecord !! "createdAt") as [c|] eqn:Hc.
  - right. exists k, c. split; [reflexivity|]. split; [reflexivity|].
    destruct (storeGranuleRecord_dynamodb granuleRecord table k c Hk Hc)
      as (new & Hlook & Heq).
    cbv zeta in Hlook, Heq.
    destruct (createdAt_not_older granuleRecord (default ∅ (table !! k))
              && execution_changed granuleRecord (default ∅ (table !! k))).
    + right. by exists new.
    + by left.
  - left. split; [by apply storeGranuleRecord_no_createdAt | by right].
Qed.

(** X5: a call of [_storeGranuleRecord] never changes the item of any
    other granule, and leaves the whole table unchanged unless the write is
    applied. *)
Theorem store_touches_one_granule (granuleRecord : Item) (table : Table) :
  let result := _storeGranuleRecord dynamodb granuleRecord table in
  (∀ k, granuleRecord !! "granuleId" ≠ Some (VStr k) →
        result.1 !! k = table !! k)
  ∧ ((∀ out, result.2 ≠ inr (Some out)) → result.1 = table).
Proof.
  cbv zeta.
  destruct (storeGranuleRecord_cases granuleRecord table)
    as [[-> _] | (k & c & Hk & Hc & [[-> _] | (new & -> & _)])];
    cbn [fst snd]; try (split; [reflexivity | reflexivity]).
  split.
  - intros k' Hk'. apply lookup_insert_ne. congruence.
  - intros Hout. by destruct (Hout {| Attributes := None |}).
Qed.

(** X6: on a healthy table [_storeGranuleRecord] rejects only a record
    that has no string [granuleId] or no [createdAt], with the validation
    error of the service and the table unchanged; for every other record it
    resolves. *)
Theorem store_rejects_only_invalid_records
    (granuleRecord : Item) (table : Table) :
  match granuleRecord !! "granuleId", granuleRecord !! "createdAt" with
  | Some (VStr k), Some c =>
      ∃ table' response,
        _storeGranuleRecord dynamodb granuleRecord table = (table', inr response)
  | _, _ =>
      _storeGranuleRecord dynamodb granuleRecord table
      = (table, inl ValidationException)
  end.
Proof.
  destruct (storeGranuleRecord_cases granuleRecord table)
    as [[Heq Hbad] | (k & c & Hk & Hc & [[Heq _] | (new & Heq & _)])].
  - destruct Hbad as [Hk | Hc].
    + destruct (granuleRecord !! "granuleId") as [[k| | |]|]; try exact Heq.
      by destruct (Hk k).
    + rewrite Hc. by destruct (granuleRecord !! "granuleId") as [[k| | |]|].
  - rewrite Hk, Hc. eauto.
  - rewrite Hk, Hc. eauto.
Qed.

(** X4: when nothing is stored under the key, [_storeGranuleRecord] stores
    the record as it is, whatever its status: reading the key afterwards
    gives the record back. *)
Theorem store_inserts_new_granule
    (granuleRecord : Item) (table : Table) (k : string) (c : Value) :
  granuleRecord !! "granuleId" = Some (VStr k) →
  granuleRecord !! "createdAt" = Some c →
  table !! k = None →
  _storeGranuleRecord dynamodb granuleRecord table
  = (<[k := granuleRecord]> table, inr (Some {| Attributes := None |})).
Proof.
  intros Hk Hc Hnone.
  destruct (storeGranuleRecord_dynamodb granuleRecord table k c Hk Hc)
    as (new & Hlook & Heq).
  rewrite Hnone in Hlook, Heq. cbn [from_option id] in Hlook, Heq.
  rewrite Heq.
  assert (Hguard : createdAt_not_older granuleRecord ∅
                   && execution_changed granuleRecord ∅ = true).
  { unfold createdAt_not_older, execution_changed. rewrite !lookup_empty.
    cbn [defined negb orb andb].
    destruct (bool_decide _ && defined (granuleRecord !! "execution")) eqn:Hrun;
      [|reflexivity].
    apply andb_true_iff in Hrun as [_ He].
    by destruct (granuleRecord !! "execution"). }
  rewrite Hguard. do 2 f_equal. apply map_eq. intros g.
  rewrite Hlook. unfold written_attribute. rewrite fields_lookup.
  case_bool_decide as Hg.
  - subst g. unfold granuleId_key. rewrite Hk.
    rewrite lookup_union_l' by (rewrite lookup_singleton_eq; eauto).
    by rewrite lookup_singleton_eq.
  - destruct (granuleRecord !! g) as [v|] eqn:Hv.
    + rewrite lookup_empty. cbn [defined negb]. by rewrite orb_true_r.
    + unfold granuleId_key. rewrite Hk.
      rewrite lookup_union_r by (by rewrite lookup_singleton_ne).
      apply lookup_empty.
Qed.

Lemma written_attribute_idempotent (granuleRecord old new : Item) :
  (∀ g, new !! g = written_attribute granuleRecord old g) →
  ∀ g, written_attribute granuleRecord new g = new !! g.
Proof.
  intros Hnew g. pose proof (Hnew g) as Hg. unfold written_attribute in *.
  destruct ((granuleRecord ∖ granuleId_key granuleRecord) !! g) as [v|].
  - destruct (bool_decide (g ∈ _getMutableFieldNames granuleRecord));
      cbn [orb] in *; [by rewrite Hg|].
    destruct (old !! g) as [w|]; cbn [defined negb] in Hg;
      rewrite Hg; reflexivity.
  - destruct (granuleId_key granuleRecord !! g) as [w|] eqn:Hkey.
    + rewrite (lookup_union_l' _ _ _ (mk_is_Some _ _ Hkey)).
      rewrite (lookup_union_l' _ _ _ (mk_is_Some _ _ Hkey)) in Hg.
      by rewrite Hg.
    + by rewrite lookup_union_r.
Qed.

(** X9: delivering the same record a second time changes nothing: after a
    first call of [_storeGranuleRecord], whatever its outcome, a second call
    with the same record leaves the table as the first one left it. *)
Theorem redelivery_changes_nothing (granuleRecord : Item) (table : Table) :
  let table1 := (_storeGranuleRecord dynamodb granuleRecord table).1 in
  (_storeGranuleRecord dynamodb granuleRecord table1).1 = table1.
Proof.
  cbv zeta.
  destruct (storeGranuleRecord_cases granuleRecord table)
    as [[Heq _] | (k & c & Hk & Hc & [[Heq _] | (new & Heq & _ & Hnew)])];
    rewrite Heq; cbn [fst]; try (by rewrite Heq).
  destruct (storeGranuleRecord_cases granuleRecord (<[k := new]> table))
    as [[Heq2 _] | (k2 & c2 & Hk2 & _ & [[Heq2 _] | (new2 & Heq2 & _ & Hnew2)])];
    rewrite Heq2; cbn [fst]; try reflexivity.
  assert (k2 = k) as -> by congruence.
  rewrite lookup_insert_eq in Hnew2. cbn [from_option id] in Hnew2.
  assert (new2 = new) as ->.
  { apply map_eq. intros g. rewrite Hnew2.
    by apply (written_attribute_idempotent granuleRecord (default ∅ (table !! k))). }
  apply insert_insert_eq.
Qed.

(** X7: an applied write of a record whose status is not [running] stores
    the record over the stored item: every field of the record replaces the
    stored one, and the stored fields that the record does not carry stay. *)
Theorem completed_write_overrides
    (granuleRecord : Item) (table table' : Table) (k : string) out :
  granuleRecord !! "status" ≠ Some (VStr "running") →
  granuleRecord !! "granuleId" = Some (VStr k) →
  _storeGranuleRecord dynamodb granuleRecord table = (table', inr (Some out)) →
  table' = <[k := granuleRecord ∪ default ∅ (table !! k)]> table.
Proof.
  intros Hst Hk Hstore.
  destruct (storeGranuleRecord_applied _ _ _ _ _ Hk Hstore)
    as (_ & _ & new & -> & Hlook).
  f_equal. apply map_eq. intros g. rewrite Hlook.
  unfold written_attribute. rewrite fields_lookup.
  case_bool_decide as Hg.
  - subst g. unfold granuleId_key. rewrite Hk.
    rewrite lookup_union_l' by (rewrite lookup_singleton_eq; eauto).
    rewrite lookup_union_l' by eauto.
    by rewrite lookup_singleton_eq.
  - destruct (granuleRecord !! g) as [v|] eqn:Hv.
    + rewrite (lookup_union_l' _ _ _ (mk_is_Some _ _ Hv)), Hv.
      unfold _getMutableFieldNames.
      rewrite (bool_decide_eq_false_2 (granuleRecord !! "status" = _)) by done.
      rewrite bool_decide_eq_true_2; [reflexivity|].
      rewrite Object_keys_elem, Hv. eauto.
    + rewrite (lookup_union_r granuleRecord) by done.
      unfold granuleId_key. rewrite Hk.
      by rewrite lookup_union_r by (by rewrite lookup_singleton_ne).
Qed.

(** X8: an applied write of a [running] record over a stored item takes
    the five allow-listed fields from the record, where it carries them, and
    never changes a stored field outside that list; a field outside the
    list is taken from the record only when the item did not have it. *)
Theorem running_write_keeps_other_fields
    (granuleRecord old : Item) (table table' : Table) (k : string) out :
  granuleRecord !! "status" = Some (VStr "running") →
  granuleRecord !! "granuleId" = Some (VStr k) →
  table !! k = Some old →
  _storeGranuleRecord dynamodb granuleRecord table = (table', inr (Some out)) →
  ∃ new : Item,
    table' = <[k := new]> table
    ∧ (∀ f, f ∈ ["createdAt"; "updatedAt"; "timestamp"; "status"; "execution"] →
         new !! f = match granuleRecord !! f with
                    | Some v => Some v
                    | None => old !! f
                    end)
    ∧ (∀ f, f ∉ ["createdAt"; "updatedAt"; "timestamp"; "status"; "execution"] →
         f ≠ "granuleId" →
         new !! f = match old !! f with
                    | Some v => Some v
                    | None => granuleRecord !! f
                    end).
Proof.
  intros Hrun Hk Hold Hstore.
  destruct (storeGranuleRecord_applied _ _ _ _ _ Hk Hstore)
    as (_ & _ & new & -> & Hlook).
  rewrite Hold in Hlook. cbn [from_option id] in Hlook.
  exists new. split; [reflexivity|].
  assert (Hother : ∀ f, f ≠ "granuleId" →
            (granuleId_key granuleRecord ∪ old) !! f = old !! f).
  { intros f Hf. unfold granuleId_key. rewrite Hk.
    by rewrite lookup_union_r by (by rewrite lookup_singleton_ne). }
  split.
  - intros f Hf. rewrite Hlook. unfold written_attribute.
    assert (Hne : f ≠ "granuleId").
    { intros ->.
      repeat (apply elem_of_cons in Hf as [Hf|Hf]; [discriminate Hf|]).
      by apply elem_of_nil in Hf. }
    rewrite fields_lookup, bool_decide_eq_false_2 by done.
    destruct (granuleRecord !! f) as [v|]; [|by apply Hother].
    unfold _getMutableFieldNames.
    rewrite (bool_decide_eq_true_2 (granuleRecord !! "status" = _)) by done.
    by rewrite bool_decide_eq_true_2.
  - intros f Hf Hne. rewrite Hlook. unfold written_attribute.
    rewrite fields_lookup, bool_decide_eq_false_2 by done.
    destruct (granuleRecord !! f) as [v|].
    + unfold _getMutableFieldNames.
      rewrite (bool_decide_eq_true_2 (granuleRecord !! "status" = _)) by done.
      rewrite bool_decide_eq_false_2 by done.
      by destruct (old !! f).
    + rewrite Hother by done. by destruct (old !! f).
Qed.

End GranuleExtras.

(** ** Search parameters *)

Section GranuleSearchFacts.

Import GranuleSearch.

Implicit Types (acc : Collected) (entry : string * SearchValue)
  (searchParams : list (string * SearchValue)).

Lemma forEach_entry_arrays isQuery acc entry :
  ∃ expression,
    expression ≠ ""
    ∧ filterArray (forEach_entry isQuery acc entry)
      = (filterArray acc
         ++ if is_key_condition isQuery entry then [] else [expression])%list
    ∧ keyConditionArray (forEach_entry isQuery acc entry)
      = (keyConditionArray acc
         ++ if is_key_condition isQuery entry then [expression] else [])%list.
Proof.
  unfold forEach_entry, is_key_condition. cbv zeta.
  set (ve := if endsWith entry.1 "__from" || endsWith entry.1 "__to" then _ else _).
  exists ve.2. split.
  - subst ve. destruct (endsWith entry.1 "__from" || endsWith entry.1 "__to");
      [discriminate|].
    destruct entry.2; cbn [snd]; [|discriminate].
    destruct (negb isQuery && _); discriminate.
  - destruct (isQuery && (field_of entry.1 =? "granuleId")%string);
      cbn [filterArray keyConditionArray]; by rewrite ?app_nil_r.
Qed.

Lemma foldl_arrays isQuery searchParams acc :
  let final := foldl (forEach_entry isQuery) acc searchParams in
  length (filterArray final)
  = (length (filterArray acc)
     + length (List.filter (λ e, negb (is_key_condition isQuery e)) searchParams))%nat
  ∧ length (keyConditionArray final)
    = (length (keyConditionArray acc)
       + length (List.filter (is_key_condition isQuery) searchParams))%nat
  ∧ (Forall (λ e, e ≠ "") (filterArray acc) →
     Forall (λ e, e ≠ "") (filterArray final)).
Proof.
  revert acc. induction searchParams as [|entry l IH]; intros acc; cbv zeta.
  - cbn. split; [lia|]. split; [lia | done].
  - cbn [foldl]. destruct (IH (forEach_entry isQuery acc entry)) as (H1 & H2 & H3).
    destruct (forEach_entry_arrays isQuery acc entry) as (e & He & Hf & Hk).
    rewrite H1, H2, Hf, Hk, !length_app. cbn [List.filter].
    destruct (is_key_condition isQuery entry); cbn [negb length].
    + split; [lia|]. split; [lia|]. intros Hacc. apply H3.
      rewrite Hf. by rewrite app_nil_r.
    + split; [lia|]. split; [lia|]. intros Hacc. apply H3.
      rewrite Hf. apply Forall_app. split; [done | by constructor].
Qed.

Lemma join_nonempty sep (l : list string) :
  l ≠ [] → Forall (λ e, e ≠ "") l → join sep l ≠ "".
Proof.
  intros Hl Hall. destruct l as [|x l]; [done|].
  apply Forall_cons in Hall as [Hx _].
  destruct x as [|c x]; [done|]. unfold join. cbn [String.concat].
  destruct l; [done|]. discriminate.
Qed.

(** X10: [getDynamoDbSearchParams] makes exactly one expression per search
    parameter; for a query the parameters on the field [granuleId] become
    key conditions and the others filters, for a scan there is no key
    condition; [filterExpression] is undefined exactly when there is no
    filter and the filters joined by [AND] otherwise. *)
Theorem search_params_partition searchParams (isQuery : bool) :
  let params := collected (getDynamoDbSearchParams searchParams isQuery) in
  (length (filterArray params) + length (keyConditionArray params)
   = length searchParams)%nat
  ∧ length (keyConditionArray params)
    = (if isQuery
       then length (List.filter
              (λ entry, String.eqb (field_of entry.1) "granuleId") searchParams)
       else 0)%nat
  ∧ filterExpression (getDynamoDbSearchParams searchParams isQuery)
    = match filterArray params with
      | [] => None
      | _ => Some (join " AND " (filterArray params))
      end.
Proof.
  cbv zeta. unfold getDynamoDbSearchParams. cbn [collected filterExpression].
  destruct (foldl_arrays isQuery searchParams
              {| attributeNames := ∅; attributeValues := ∅;
                 filterArray := []; keyConditionArray := [] |})
    as (H1 & H2 & _).
  cbv zeta in H1, H2. cbn [filterArray keyConditionArray length Nat.add] in H1, H2.
  split; [|split].
  - rewrite H1, H2.
    clear. induction searchParams as [|e l IH]; [reflexivity|].
    cbn [List.filter]. destruct (is_key_condition isQuery e); cbn [negb length]; lia.
  - rewrite H2. unfold is_key_condition. destruct isQuery; cbn [andb].
    + reflexivity.
    + clear. by induction searchParams.
  - by destruct (filterArray _).
Qed.

Lemma forEach_entry_names isQuery acc entry :
  attributeNames (forEach_entry isQuery acc entry)
  = <["#" +:+ field_of entry.1 := field_of entry.1]> (attributeNames acc).
Proof.
  unfold forEach_entry. cbv zeta.
  by destruct (isQuery && (field_of entry.1 =? "granuleId")%string).
Qed.

Lemma insert_name_declared (names : gmap string string) (f g : string) :
  names !! ("#" +:+ g) = Some g →
  <["#" +:+ f := f]> names !! ("#" +:+ g) = Some g.
Proof.
  intros Hg. destruct (decide (f = g)) as [->|Hne].
  - apply lookup_insert_eq.
  - rewrite lookup_insert_ne; [exact Hg|].
    intros Heq. apply Hne. by apply (inj (String.append "#")) in Heq.
Qed.

Lemma foldl_names isQuery searchParams acc (g : string) :
  attributeNames acc !! ("#" +:+ g) = Some g
  ∨ (∃ entry, entry ∈ searchParams ∧ field_of entry.1 = g) →
  attributeNames (foldl (forEach_entry isQuery) acc searchParams)
    !! ("#" +:+ g) = Some g.
Proof.
  revert acc. induction searchParams as [|entry l IH]; intros acc H.
  - destruct H as [H | (e & He & _)]; [exact H|]. by apply elem_of_nil in He.
  - cbn [foldl]. apply IH. rewrite forEach_entry_names.
    destruct H as [H | (e & He & Hg)].
    + left. by apply insert_name_declared.
    + apply elem_of_cons in He as [-> | He].
      * left. rewrite Hg. apply lookup_insert_eq.
      * right. by exists e.
Qed.

(** X11: the name placeholder of every search parameter is declared: for a
    parameter [key] the attribute names map [#field] to [field], the part
    of the key before the first double underscore. *)
Theorem search_params_declare_names searchParams (isQuery : bool)
    (key : string) (value : SearchValue) :
  (key, value) ∈ searchParams →
  attributeNames (collected (getDynamoDbSearchParams searchParams isQuery))
    !! ("#" +:+ field_of key) = Some (field_of key).
Proof.
  intros Hin. unfold getDynamoDbSearchParams. cbn [collected].
  apply foldl_names. right. by exists (key, value).
Qed.

Lemma scan_fold (names : gmap string string) (l : list string)
    (projection : list string) :
  let final :=
    foldl (λ (a : gmap string string * list string) field,
             (<["#" +:+ field := field]> a.1, (a.2 ++ ["#" +:+ field])%list))
      (names, projection) l in
  final.2 = (projection ++ (String.append "#" <$> l))%list
  ∧ ∀ g, names !! ("#" +:+ g) = Some g ∨ g ∈ l →
         final.1 !! ("#" +:+ g) = Some g.
Proof.
  revert names projection. induction l as [|f l IH]; intros names projection;
    cbv zeta.
  - cbn. split; [by rewrite app_nil_r|]. intros g [H|H]; [exact H|].
    by apply elem_of_nil in H.
  - cbn [foldl fst snd]. destruct (IH (<["#" +:+ f := f]> names)
                           (projection ++ ["#" +:+ f])%list) as [H1 H2].
    cbv zeta in H1, H2. split.
    + rewrite H1. by rewrite <- app_assoc.
    + intros g Hg. apply H2. destruct Hg as [Hg | Hg].
      * left. by apply insert_name_declared.
      * apply elem_of_cons in Hg as [-> | Hg]; [|by right].
        left. apply lookup_insert_eq.
Qed.

(** X12: the scan parameters of [granuleAttributeScan] carry a filter
    expression and expression attribute values exactly when there is a
    search parameter, always project the same nine fields, and declare the
    name placeholder of every projected field and of every search
    parameter. *)
Theorem scan_params_are_consistent (tableName : option string) searchParams :
  let params := granuleAttributeScan tableName searchParams in
  (match searchParams with
   | [] => FilterExpression params = None
           ∧ ExpressionAttributeValues params = None
   | _ => (∃ expression, FilterExpression params = Some expression)
          ∧ ExpressionAttributeValues params
            = Some (attributeValues
                      (collected (getDynamoDbSearchParams searchParams false)))
   end)
  ∧ ProjectionExpression params
    = "#granuleId, #collectionId, #createdAt, #beginningDateTime, #endingDateTime, #status, #updatedAt, #published, #provider"
  ∧ (∀ field, field ∈ scan_fields →
       ExpressionAttributeNames params !! ("#" +:+ field) = Some field)
  ∧ (∀ key value, (key, value) ∈ searchParams →
       ExpressionAttributeNames params !! ("#" +:+ field_of key)
       = Some (field_of key)).
Proof.
  cbv zeta. unfold granuleAttributeScan. cbv zeta.
  cbn [FilterExpression ExpressionAttributeValues ProjectionExpression
       ExpressionAttributeNames].
  destruct (scan_fold
              (attributeNames (collected (getDynamoDbSearchParams searchParams false)))
              scan_fields []) as [Hproj Hnames].
  cbv zeta in Hproj, Hnames.
  split; [|split; [|split]].
  - destruct (search_params_partition searchParams false) as (Hlen & Hkey & Hexp).
    cbv zeta in Hlen, Hkey, Hexp. rewrite Hkey, Nat.add_0_r in Hlen.
    destruct (foldl_arrays false searchParams
                {| attributeNames := ∅; attributeValues := ∅;
                   filterArray := []; keyConditionArray := [] |})
      as (_ & _ & Hne).
    specialize (Hne (Forall_nil_2 _)). cbv zeta in Hne.
    change (foldl (forEach_entry false) _ searchParams)
      with (collected (getDynamoDbSearchParams searchParams false)) in Hne.
    rewrite Hexp.
    destruct searchParams as [|entry l].
    + destruct (filterArray _); [done | discriminate Hlen].
    + destruct (filterArray _) as [|e es] eqn:Hfa; [discriminate Hlen|].
      split; [eauto|]. cbn [truthy_string].
      rewrite (proj2 (String.eqb_neq _ _)); [reflexivity|].
      by apply join_nonempty.
  - rewrite Hproj. reflexivity.
  - intros field Hf. apply Hnames. by right.
  - intros key value Hin. apply Hnames. left.
    by apply (search_params_declare_names _ _ _ value).
Qed.

End GranuleSearchFacts.

(** ** External services *)

Section ServiceFacts.

Import GranuleServices.

Context {S CmrSettings Metadata ExecutionDescription : Type}.

(** X13: for a granule that is not published or has no [cmrLink],
    [_removeGranuleFromCmr] fails with [CumulusModelError] and the store is
    as it was, whatever the CMR services would do: CMR is not called. *)
Theorem unpublished_granule_is_not_sent_to_cmr
    (ToString : option Value → string)
    (getCmrSettings : Async S CmrSettings)
    (getGranuleMetadata : CmrSettings → option Value → Async S Metadata)
    (metadata_title : Metadata → option Value)
    (deleteGranule : CmrSettings → option Value → option Value → Async S unit)
    (granule : Obj) (s : S) :
  truthy (granule !! "published") = false
  ∨ truthy (granule !! "cmrLink") = false →
  ∃ message,
    _removeGranuleFromCmr ToString getCmrSettings getGranuleMetadata
      metadata_title deleteGranule granule s
    = (s, inl (CumulusModelError message)).
Proof.
  intros H. unfold _removeGranuleFromCmr.
  assert (Hguard : negb (truthy (granule !! "published"))
                   || negb (truthy (granule !! "cmrLink")) = true).
  { destruct H as [-> | ->]; [reflexivity | apply orb_true_r]. }
  rewrite Hguard. eexists. reflexivity.
Qed.

(** X14: [describeGranuleExecution] never rejects: it resolves with the
    description when [describeExecution] resolves, and with [undefined]
    when it rejects, whatever the error. *)
Theorem describeGranuleExecution_never_rejects
    (describeExecution : option Value → Async S ExecutionDescription)
    (executionArn : option Value) (s : S) :
  match describeExecution executionArn s with
  | (s', inr description) =>
      describeGranuleExecution describeExecution executionArn s
      = (s', inr (Some description))
  | (s', inl _) =>
      describeGranuleExecution describeExecution executionArn s
      = (s', inr None)
  end.
Proof.
  unfold describeGranuleExecution, try_catch, await.
  by destruct (describeExecution executionArn s) as [s' [e|d]].
Qed.

End ServiceFacts.

(** ** The PDR parser *)

Section PdrFacts.

Import Pdr.

Variable ToString : option Value → string.
Variable number_plus : Z → Z → Z.
Variable regex_valid : string → bool.
Variable regex_match : string → string → option (option string).
Variable loadPdrFile : string → Result Pvl.

(** X15: [parseSpec] fails with a [PDRParsingError] that names the first of
    [DIRECTORY_ID], [FILE_ID] and [FILE_SIZE] that the spec lacks, together
    with the PDR name; when it succeeds, [path], [name] and [fileSize] are
    the values of these three items. *)
Theorem parseSpec_required_fields (pdrName : string) (spec : Pvl) :
  match get_value spec "DIRECTORY_ID", get_value spec "FILE_ID",
        get_value spec "FILE_SIZE" with
  | None, _, _ =>
      parseSpec pdrName spec
      = inl (PDRParsingError "DIRECTORY_ID" (Some pdrName))
  | Some _, None, _ =>
      parseSpec pdrName spec = inl (PDRParsingError "FILE_ID" (Some pdrName))
  | Some _, Some _, None =>
      parseSpec pdrName spec = inl (PDRParsingError "FILE_SIZE" (Some pdrName))
  | Some directory, Some file, Some size =>
      ∀ parsed, parseSpec pdrName spec = inr parsed →
        path parsed = Some directory
        ∧ name parsed = Some file
        ∧ fileSize parsed = Some size
  end.
Proof.
  unfold parseSpec, getItem, bind.
  destruct (get_value spec "DIRECTORY_ID") as [directory|]; [|reflexivity].
  destruct (get_value spec "FILE_ID") as [file|]; [|reflexivity].
  destruct (get_value spec "FILE_SIZE") as [size|]; [|reflexivity].
  intros parsed.
  destruct (get_value spec "FILE_CKSUM_TYPE") as [t|],
           (get_value spec "FILE_CKSUM_VALUE") as [v|];
    repeat match goal with
           | |- context [if ?b then _ else _] => destruct b
           end;
    intros [= <-]; done.
Qed.

(** X16: a parsed spec carries both checksum properties or none: either
    the spec has no truthy checksum item and the result has no checksum, or
    the type is [CKSUM] and the value is a number other than 0, and the
    result carries both. *)
Theorem parseSpec_checksum_is_complete (pdrName : string) (spec : Pvl)
    (parsed : ParsedSpec) :
  parseSpec pdrName spec = inr parsed →
  (checksumType parsed = None ∧ checksumValue parsed = None
   ∧ truthy (get_value spec "FILE_CKSUM_TYPE") = false
   ∧ truthy (get_value spec "FILE_CKSUM_VALUE") = false)
  ∨ (checksumType parsed = Some (VStr "CKSUM")
     ∧ get_value spec "FILE_CKSUM_TYPE" = Some (VStr "CKSUM")
     ∧ ∃ n, n ≠ 0%Z
            ∧ checksumValue parsed = Some (VNum n)
            ∧ get_value spec "FILE_CKSUM_VALUE" = Some (VNum n)).
Proof.
  unfold parseSpec, getItem, bind.
  destruct (get_value spec "DIRECTORY_ID") as [directory|]; [|discriminate].
  destruct (get_value spec "FILE_ID") as [file|]; [|discriminate].
  destruct (get_value spec "FILE_SIZE") as [size|]; [|discriminate].
  set (t := get_value spec "FILE_CKSUM_TYPE").
  set (v := get_value spec "FILE_CKSUM_VALUE").
  assert (Ht : (match t with Some value => inr (Some value) | None => inr None end
                : Result (option Value)) = inr t) by (by destruct t).
  assert (Hv : (match v with Some value => inr (Some value) | None => inr None end
                : Result (option Value)) = inr v) by (by destruct v).
  rewrite Ht, Hv. clear Ht Hv.
  destruct (truthy t) eqn:Htt, (truthy v) eqn:Htv; cbn [orb negb andb];
    try discriminate.
  - case_bool_decide as Hck; cbn [negb]; [|discriminate].
    destruct (not_a_number v) eqn:Hnum; [discriminate|].
    intros [= <-]. right. cbn [checksumType checksumValue].
    split; [exact Hck|]. split; [exact Hck|].
    destruct v as [[s|n|b|d]|]; try discriminate Hnum.
    exists n. split; [|done]. cbn in Htv.
    intros ->. discriminate Htv.
  - intros [= <-]. left. by repeat split.
Qed.

(** X17: for a spec that has the three required items, a truthy checksum
    value without a truthy type fails with [MISSING FILE_CKSUM_TYPE
    PARAMETER]; a truthy type without a truthy value (a value of 0 is not
    truthy) fails with [MISSING FILE_CKSUM_VALUE PARAMETER]; with both, a
    type other than [CKSUM] fails with [UNSUPPORTED CHECKSUM TYPE], and a
    value that is not a number fails with a [PDRParsingError] that names
    [FILE_CKSUM_VALUE] and the PDR. *)
Theorem parseSpec_checksum_errors (pdrName : string) (spec : Pvl) :
  is_Some (get_value spec "DIRECTORY_ID") →
  is_Some (get_value spec "FILE_ID") →
  is_Some (get_value spec "FILE_SIZE") →
  (truthy (get_value spec "FILE_CKSUM_TYPE") = false →
   truthy (get_value spec "FILE_CKSUM_VALUE") = true →
   parseSpec pdrName spec
   = inl (PDRParsingError "MISSING FILE_CKSUM_TYPE PARAMETER" None))
  ∧ (truthy (get_value spec "FILE_CKSUM_TYPE") = true →
     truthy (get_value spec "FILE_CKSUM_VALUE") = false →
     parseSpec pdrName spec
     = inl (PDRParsingError "MISSING FILE_CKSUM_VALUE PARAMETER" None))
  ∧ (truthy (get_value spec "FILE_CKSUM_TYPE") = true →
     truthy (get_value spec "FILE_CKSUM_VALUE") = true →
     get_value spec "FILE_CKSUM_TYPE" ≠ Some (VStr "CKSUM") →
     parseSpec pdrName spec
     = inl (PDRParsingError "UNSUPPORTED CHECKSUM TYPE" None))
  ∧ (get_value spec "FILE_CKSUM_TYPE" = Some (VStr "CKSUM") →
     truthy (get_value spec "FILE_CKSUM_VALUE") = true →
     not_a_number (get_value spec "FILE_CKSUM_VALUE") = true →
     parseSpec pdrName spec
     = inl (PDRParsingError "FILE_CKSUM_VALUE" (Some pdrName))).
Proof.
  intros [directory Hd] [file Hf] [size Hs].
  unfold parseSpec, getItem, bind. rewrite Hd, Hf, Hs.
  set (t := get_value spec "FILE_CKSUM_TYPE").
  set (v := get_value spec "FILE_CKSUM_VALUE").
  assert (Ht : (match t with Some value => inr (Some value) | None => inr None end
                : Result (option Value)) = inr t) by (by destruct t).
  assert (Hv : (match v with Some value => inr (Some value) | None => inr None end
                : Result (option Value)) = inr v) by (by destruct v).
  rewrite Ht, Hv. clear Ht Hv.
  split; [|split; [|split]].
  - by intros -> ->.
  - by intros -> ->.
  - intros -> -> Hck. cbn [orb negb andb].
    by rewrite bool_decide_eq_false_2.
  - intros Hck -> ->. rewrite Hck. reflexivity.
Qed.

Lemma map_parseSpec_length (pdrName : string) (specs : list Pvl) files :
  map_parseSpec pdrName specs = inr files → length files = length specs.
Proof.
  revert files. induction specs as [|spec specs IH]; intros files; cbn.
  - by intros [= <-].
  - unfold bind. destruct (parseSpec pdrName spec) as [e|file]; [discriminate|].
    destruct (map_parseSpec pdrName specs) as [e|rest]; [discriminate|].
    intros [= <-]. cbn. f_equal. by apply IH.
Qed.

Lemma fold_plus_numbers (files : list ParsedSpec) (sizes : list Z) (a : Z) :
  (∀ x y, (0 ≤ x)%Z → (0 ≤ y)%Z → (x + y ≤ 2 ^ 53)%Z →
          number_plus x y = (x + y)%Z) →
  fileSize <$> files = (λ n, Some (VNum n)) <$> sizes →
  (0 ≤ a)%Z →
  Forall (λ n, (0 ≤ n)%Z) sizes →
  (a + foldr Z.add 0%Z sizes ≤ 2 ^ 53)%Z →
  foldl (λ total file, plus ToString number_plus total (fileSize file))
    (Some (VNum a)) files
  = Some (VNum (a + foldr Z.add 0%Z sizes)).
Proof.
  intros Hexact. revert sizes a.
  induction files as [|file files IH]; intros sizes a Hs Ha Hpos Hsum.
  - destruct sizes; [|discriminate Hs]. cbn. by rewrite Z.add_0_r.
  - destruct sizes as [|n sizes]; [discriminate Hs|].
    injection Hs as Hn Hs. apply Forall_cons in Hpos as [Hn0 Hpos].
    cbn [foldl foldr] in *. rewrite Hn. cbn [plus as_number].
    assert (Hrest : (0 ≤ foldr Z.add 0 sizes)%Z).
    { clear -Hpos. induction Hpos; cbn; lia. }
    rewrite Hexact by lia.
    rewrite (IH sizes _ Hs) by (done || lia). do 2 f_equal. lia.
Qed.

(** X18: [granuleFromFileGroup] fails when the group has no [DATA_TYPE],
    and with a bare [Error] when it has no [FILE_SPEC]; when it succeeds the
    granule has the data type of the group and one parsed file per
    [FILE_SPEC], in order; and when the file sizes are numbers that are not
    negative and whose sum is at most 2^53, where the sum of two numbers is
    exact, its size is their sum. *)
Theorem granuleFromFileGroup_reads_every_spec
    (fileGroup : Pvl) (granuleIdExtraction pdrName : string) :
  match get_value fileGroup "DATA_TYPE", objects fileGroup "FILE_SPEC" with
  | None, _ =>
      granuleFromFileGroup ToString number_plus regex_valid regex_match fileGroup
        granuleIdExtraction pdrName
      = inl (PDRParsingError "DATA_TYPE is missing" None)
  | Some _, [] =>
      granuleFromFileGroup ToString number_plus regex_valid regex_match fileGroup
        granuleIdExtraction pdrName
      = inl Error_
  | Some type, specs =>
      ∀ granule,
        granuleFromFileGroup ToString number_plus regex_valid regex_match
          fileGroup granuleIdExtraction pdrName = inr granule →
        dataType granule = type
        ∧ map_parseSpec pdrName specs = inr (files granule)
        ∧ length (files granule) = length specs
        ∧ ∀ sizes : list Z,
            (∀ x y, (0 ≤ x)%Z → (0 ≤ y)%Z → (x + y ≤ 2 ^ 53)%Z →
                    number_plus x y = (x + y)%Z) →
            fileSize <$> files granule = (λ n, Some (VNum n)) <$> sizes →
            Forall (λ n, (0 ≤ n)%Z) sizes →
            (foldr Z.add 0%Z sizes ≤ 2 ^ 53)%Z →
            granuleSize granule = Some (VNum (foldr Z.add 0%Z sizes))
  end.
Proof.
  unfold granuleFromFileGroup.
  destruct (get_value fileGroup "DATA_TYPE") as [type|]; [|reflexivity].
  destruct (objects fileGroup "FILE_SPEC") as [|spec specs]; [reflexivity|].
  cbn [length Nat.eqb]. intros granule. unfold bind.
  destruct (map_parseSpec pdrName (spec :: specs)) as [e|parsed] eqn:Hmap;
    [discriminate|].
  destruct (match parsed with [] => _ | _ => _ end) as [e|id]; [discriminate|].
  intros [= <-]. cbn [dataType files granuleSize].
  split; [reflexivity|]. split; [reflexivity|].
  split; [by apply map_parseSpec_length in Hmap|].
  intros sizes Hexact Hs Hpos Hsum.
  by rewrite (fold_plus_numbers _ sizes 0 Hexact Hs) by (done || lia).
Qed.

Lemma granuleFromFileGroup_files
    (fileGroup : Pvl) (granuleIdExtraction pdrName : string) granule :
  granuleFromFileGroup ToString number_plus regex_valid regex_match fileGroup
    granuleIdExtraction pdrName = inr granule →
  length (files granule) = length (objects fileGroup "FILE_SPEC")
  ∧ files granule ≠ [].
Proof.
  intros H.
  pose proof (granuleFromFileGroup_reads_every_spec fileGroup
                granuleIdExtraction pdrName) as Hspec.
  destruct (get_value fileGroup "DATA_TYPE") as [type|];
    [|rewrite Hspec in H; discriminate H].
  destruct (objects fileGroup "FILE_SPEC") as [|spec specs];
    [rewrite Hspec in H; discriminate H|].
  destruct (Hspec granule H) as (_ & _ & Hlen & _).
  split; [exact Hlen|]. intros Hnil. rewrite Hnil in Hlen. discriminate Hlen.
Qed.

Lemma map_granuleFromFileGroup_spec
    (fileGroups : list Pvl) (granuleIdExtraction pdrName : string) granules :
  map_granuleFromFileGroup ToString number_plus regex_valid regex_match fileGroups
    granuleIdExtraction pdrName = inr granules →
  Forall2 (λ fileGroup granule,
             granuleFromFileGroup ToString number_plus regex_valid regex_match fileGroup
               granuleIdExtraction pdrName = inr granule)
    fileGroups granules.
Proof.
  revert granules. induction fileGroups as [|fg fgs IH]; intros granules; cbn.
  - intros [= <-]. constructor.
  - unfold bind.
    destruct (granuleFromFileGroup _ _ _ _ fg _ _) as [e|g] eqn:Hg; [discriminate|].
    destruct (map_granuleFromFileGroup _ _ _ _ fgs _ _) as [e|gs]; [discriminate|].
    intros [= <-]. constructor; [exact Hg | by apply IH].
Qed.

Lemma foldl_count (granules : list Granule) (a : nat) :
  foldl (λ total granule, (total + length (files granule))%nat) a granules
  = (a + sum_list ((λ granule, length (files granule)) <$> granules))%nat.
Proof.
  revert a. induction granules as [|g gs IH]; intros a; cbn; [lia|].
  rewrite IH. lia.
Qed.

(** X19: when [parsePdr] succeeds, over the first group of the document if
    it has groups, there is one granule per [FILE_GROUP], each with at least
    one file, and [filesCount] is both the number of [FILE_SPEC] objects of
    these groups and the [TOTAL_FILE_COUNT] of the document. *)
Theorem parsePdr_counts_are_consistent
    (pdrFilePath granuleIdExtraction pdrName : string) (parsed : ParsedPdr) :
  parsePdr ToString number_plus regex_valid regex_match loadPdrFile pdrFilePath
    granuleIdExtraction pdrName = inr parsed →
  ∃ loaded,
    loadPdrFile pdrFilePath = inr loaded
    ∧ let document := match groups loaded with
                      | group :: _ => group
                      | [] => loaded
                      end in
      let fileGroups := objects document "FILE_GROUP" in
      granulesCount parsed = length fileGroups
      ∧ length (granules parsed) = length fileGroups
      ∧ filesCount parsed
        = sum_list ((λ fileGroup, length (objects fileGroup "FILE_SPEC"))
                      <$> fileGroups)
      ∧ get_value document "TOTAL_FILE_COUNT"
        = Some (VNum (Z.of_nat (filesCount parsed)))
      ∧ Forall (λ granule, files granule ≠ []) (granules parsed).
Proof.
  unfold parsePdr, bind.
  destruct (loadPdrFile pdrFilePath) as [e|loaded]; [discriminate|].
  set (document := match groups loaded with group :: _ => group | [] => loaded end).
  destruct (map_granuleFromFileGroup _ _ _ _ (objects document "FILE_GROUP") _ _)
    as [e|gs] eqn:Hmap; [discriminate|].
  destruct (get_value document "TOTAL_FILE_COUNT") as [expected|] eqn:Htotal;
    [|discriminate].
  case_bool_decide as Hcount; cbn [negb]; [|discriminate].
  intros [= <-]. exists loaded. split; [reflexivity|]. cbv zeta.
  fold document. cbn [granulesCount granules filesCount].
  apply map_granuleFromFileGroup_spec in Hmap.
  assert (Hlen : length gs = length (objects document "FILE_GROUP")).
  { symmetry. by eapply Forall2_length. }
  split; [exact Hlen|]. split; [exact Hlen|]. split; [|split].
  - rewrite foldl_count. cbn [Nat.add]. clear -Hmap.
    induction Hmap as [|fg g fgs gs' Hg _ IH]; [reflexivity|].
    cbn. rewrite IH.
    by destruct (granuleFromFileGroup_files _ _ _ _ Hg) as [-> _].
  - by rewrite Hcount.
  - clear -Hmap.
    induction Hmap as [|fg g fgs gs' Hg _ IH]; constructor; [|exact IH].
    by destruct (granuleFromFileGroup_files _ _ _ _ Hg).
Qed.

End PdrFacts.

(** ** Concrete runs of the further properties *)

Lemma delete_removes_what_search_finds_witness :
  ∃ db',
    Pg.delete "granules" Pg.postgres {[ "granule_id" := VStr "g1" ]}
      (Sample.rows 2000) = (db', inr 1)
    ∧ Pg.search "granules" Pg.postgres ∅ db' = (db', inr [])
    ∧ Pg.table_rows db' "files" = Pg.table_rows (Sample.rows 2000) "files".
Proof.
  destruct (delete_removes_what_search_finds "granules"
              {[ "granule_id" := VStr "g1" ]} (Sample.rows 2000))
    as (found & db' & Hs & Hd & _ & Hother & Hframe).
  exists db'. rewrite search_postgres in Hs.
  pose proof (f_equal (λ x : Pg.Db * (Error + list Pg.Row),
                         match x.2 with inr l => l | inl _ => [] end) Hs) as Hf.
  cbv beta iota zeta delta [snd] in Hf. subst found.
  split; [|split].
  - rewrite Hd. do 2 f_equal; vm_compute; reflexivity.
  - rewrite (Hother ∅ _ (search_postgres "granules" ∅ (Sample.rows 2000))).
    do 2 f_equal; vm_compute; reflexivity.
  - apply Hframe. discriminate.
Defined.

Lemma store_inserts_new_granule_witness :
  Granules._storeGranuleRecord Dynamo.dynamodb
    (Sample.granule "running" 1 "e1" 0) ∅
  = (<["g1" := Sample.granule "running" 1 "e1" 0]> ∅,
     inr (Some {| Dynamo.Attributes := None |})).
Proof.
  apply (store_inserts_new_granule (Sample.granule "running" 1 "e1" 0) ∅
           "g1" (VNum 1)); reflexivity.
Defined.

Lemma store_touches_one_granule_witness :
  (Granules._storeGranuleRecord Dynamo.dynamodb
     (Sample.granule "running" 9 "e1" 0)
     (Sample.table (Sample.granule "running" 5 "e1" 7))).1 !! "g2"
  = Sample.table (Sample.granule "running" 5 "e1" 7) !! "g2"
  ∧ (Granules._storeGranuleRecord Dynamo.dynamodb
       (Sample.granule "running" 9 "e1" 0)
       (Sample.table (Sample.granule "running" 5 "e1" 7))).1
    = Sample.table (Sample.granule "running" 5 "e1" 7).
Proof.
  pose proof (store_touches_one_granule (Sample.granule "running" 9 "e1" 0)
                (Sample.table (Sample.granule "running" 5 "e1" 7))) as H.
  cbv zeta in H. destruct H as [H1 H2]. split.
  - apply H1. intros H. vm_compute in H. discriminate H.
  - apply H2. intros out H. vm_compute in H. discriminate H.
Defined.

Lemma completed_write_overrides_witness :
  (Granules._storeGranuleRecord Dynamo.dynamodb
     (Sample.granule "completed" 9 "e1" 7)
     (Sample.table (Sample.granule "running" 5 "e1" 0))).1
  = <["g1" := Sample.granule "completed" 9 "e1" 7
              ∪ default ∅ (Sample.table (Sample.granule "running" 5 "e1" 0)
                           !! "g1")]>
      (Sample.table (Sample.granule "running" 5 "e1" 0)).
Proof.
  apply (completed_write_overrides (Sample.granule "completed" 9 "e1" 7)
           (Sample.table (Sample.granule "running" 5 "e1" 0)) _ "g1"
           {| Dynamo.Attributes := None |}).
  - intros H. vm_compute in H. discriminate H.
  - reflexivity.
  - vm_compute. reflexivity.
Defined.

Lemma running_write_keeps_other_fields_witness :
  ∃ new : Dynamo.Item,
    (Granules._storeGranuleRecord Dynamo.dynamodb
       (Sample.granule "running" 9 "e2" 0)
       (Sample.table (Sample.granule "completed" 5 "e1" 7))).1
    = <["g1" := new]> (Sample.table (Sample.granule "completed" 5 "e1" 7))
    ∧ new !! "status" = Some (VStr "running")
    ∧ new !! "productVolume" = Some (VNum 7).
Proof.
  destruct (running_write_keeps_other_fields
              (Sample.granule "running" 9 "e2" 0)
              (Sample.granule "completed" 5 "e1" 7)
              (Sample.table (Sample.granule "completed" 5 "e1" 7))
              (Granules._storeGranuleRecord Dynamo.dynamodb
                 (Sample.granule "running" 9 "e2" 0)
                 (Sample.table (Sample.granule "completed" 5 "e1" 7))).1
              "g1" {| Dynamo.Attributes := None |})
    as (new & Heq & Hallow & Hother);
    [reflexivity | reflexivity | reflexivity | vm_compute; reflexivity |].
  exists new. split; [exact Heq|]. split.
  - apply (Hallow "status"). do 3 right. left.
  - apply (Hother "productVolume"); [|discriminate].
    intros H. repeat (apply elem_of_cons in H as [H|H]; [discriminate H|]).
    by apply elem_of_nil in H.
Defined.

Lemma search_params_declare_names_witness :
  GranuleSearch.attributeNames
    (GranuleSearch.collected
       (GranuleSearch.getDynamoDbSearchParams
          [("updatedAt__from", GranuleSearch.scalar (VNum 5))] true))
    !! "#updatedAt" = Some "updatedAt".
Proof.
  apply (search_params_declare_names
           [("updatedAt__from", GranuleSearch.scalar (VNum 5))] true
           "updatedAt__from" (GranuleSearch.scalar (VNum 5))).
  left.
Defined.

Lemma scan_params_are_consistent_witness :
  GranuleSearch.ExpressionAttributeNames
    (GranuleSearch.granuleAttributeScan (Some "GranulesTable")
       [("status", GranuleSearch.scalar (VStr "completed"))])
    !! "#provider" = Some "provider"
  ∧ GranuleSearch.ExpressionAttributeNames
      (GranuleSearch.granuleAttributeScan (Some "GranulesTable")
         [("status", GranuleSearch.scalar (VStr "completed"))])
      !! "#status" = Some "status".
Proof.
  pose proof (scan_params_are_consistent (Some "GranulesTable")
                [("status", GranuleSearch.scalar (VStr "completed"))]) as H.
  cbv zeta in H. destruct H as (_ & _ & Hfields & Hparams). split.
  - apply (Hfields "provider"). do 8 right. left.
  - apply (Hparams "status" (GranuleSearch.scalar (VStr "completed"))). left.
Defined.

Lemma unpublished_granule_is_not_sent_to_cmr_witness :
  ∃ message,
    GranuleServices._removeGranuleFromCmr (λ _, "g1")
      (resolve tt) (λ _ _, resolve tt) (λ _ : unit, None)
      (λ _ _ _, resolve tt) (Sample.published false) tt
    = (tt, inl (GranuleServices.CumulusModelError message)).
Proof.
  apply (unpublished_granule_is_not_sent_to_cmr (λ _, "g1")
           (resolve tt) (λ _ _, resolve tt) (λ _ : unit, None)
           (λ _ _ _, resolve tt) (Sample.published false) tt).
  left. reflexivity.
Defined.

Lemma parseSpec_required_fields_witness :
  Pdr.path {| Pdr.path := Some (VStr "/data");
              Pdr.fileSize := Some (VNum 5);
              Pdr.name := Some (VStr "a.met");
              Pdr.checksumType := None;
              Pdr.checksumValue := None |} = Some (VStr "/data")
  ∧ Pdr.name {| Pdr.path := Some (VStr "/data");
                Pdr.fileSize := Some (VNum 5);
                Pdr.name := Some (VStr "a.met");
                Pdr.checksumType := None;
                Pdr.checksumValue := None |} = Some (VStr "a.met")
  ∧ Pdr.fileSize {| Pdr.path := Some (VStr "/data");
                    Pdr.fileSize := Some (VNum 5);
                    Pdr.name := Some (VStr "a.met");
                    Pdr.checksumType := None;
                    Pdr.checksumValue := None |} = Some (VNum 5).
Proof.
  exact (parseSpec_required_fields "pdr" (Sample.file_spec "a.met" 5 []) _
           eq_refl).
Defined.

Lemma parseSpec_checksum_is_complete_witness :
  ∃ parsed,
    Pdr.parseSpec "pdr"
      (Sample.file_spec "a.hdf" 10
         [("FILE_CKSUM_TYPE", VStr "CKSUM"); ("FILE_CKSUM_VALUE", VNum 42)])
    = inr parsed
    ∧ Pdr.checksumType parsed = Some (VStr "CKSUM")
    ∧ Pdr.checksumValue parsed = Some (VNum 42).
Proof.
  eexists. split; [reflexivity|].
  destruct (parseSpec_checksum_is_complete "pdr"
              (Sample.file_spec "a.hdf" 10
                 [("FILE_CKSUM_TYPE", VStr "CKSUM");
                  ("FILE_CKSUM_VALUE", VNum 42)]) _ eq_refl)
    as [(H & _) | (Ht & _ & n & _ & Hv & Hn)]; [discriminate H|].
  split; [exact Ht|]. rewrite Hv. vm_compute in Hn. exact (eq_sym Hn).
Defined.

Lemma parseSpec_checksum_errors_witness :
  Pdr.parseSpec "pdr"
    (Sample.file_spec "a.hdf" 10
       [("FILE_CKSUM_TYPE", VStr "CKSUM"); ("FILE_CKSUM_VALUE", VNum 0)])
  = inl (Pdr.PDRParsingError "MISSING FILE_CKSUM_VALUE PARAMETER" None)
  ∧ Pdr.parseSpec "pdr"
      (Sample.file_spec "a.hdf" 10
         [("FILE_CKSUM_TYPE", VStr "MD5"); ("FILE_CKSUM_VALUE", VNum 42)])
    = inl (Pdr.PDRParsingError "UNSUPPORTED CHECKSUM TYPE" None).
Proof.
  split.
  - apply (proj1 (proj2 (parseSpec_checksum_errors "pdr"
                           (Sample.file_spec "a.hdf" 10
                              [("FILE_CKSUM_TYPE", VStr "CKSUM");
                               ("FILE_CKSUM_VALUE", VNum 0)])
                           (mk_is_Some _ _ eq_refl) (mk_is_Some _ _ eq_refl)
                           (mk_is_Some _ _ eq_refl))));
      reflexivity.
  - apply (proj1 (proj2 (proj2 (parseSpec_checksum_errors "pdr"
                           (Sample.file_spec "a.hdf" 10
                              [("FILE_CKSUM_TYPE", VStr "MD5");
                               ("FILE_CKSUM_VALUE", VNum 42)])
                           (mk_is_Some _ _ eq_refl) (mk_is_Some _ _ eq_refl)
                           (mk_is_Some _ _ eq_refl)))));
      [reflexivity | reflexivity | discriminate].
Defined.

Lemma granuleFromFileGroup_reads_every_spec_witness :
  ∃ granule,
    Pdr.granuleFromFileGroup (λ _, "") Z.add (λ _, true) (λ _ _, None)
      Sample.file_group "^(.*)$" "pdr" = inr granule
    ∧ length (Pdr.files granule) = 2
    ∧ Pdr.granuleSize granule = Some (VNum 15).
Proof.
  eexists. split; [reflexivity|].
  destruct (granuleFromFileGroup_reads_every_spec (λ _, "") Z.add (λ _, true)
              (λ _ _, None) Sample.file_group "^(.*)$" "pdr" _ eq_refl)
    as (_ & _ & Hlen & Hsize).
  split; [exact Hlen|].
  apply (Hsize [10; 5]%Z); [reflexivity | reflexivity | | done].
  repeat constructor; done.
Defined.

Lemma parsePdr_counts_are_consistent_witness :
  ∃ parsed,
    Pdr.parsePdr (λ _, "") Z.add (λ _, true) (λ _ _, None) (λ _, inr Sample.pdr)
      "a.PDR" "^(.*)$" "pdr" = inr parsed
    ∧ Pdr.granulesCount parsed = 1
    ∧ Pdr.filesCount parsed = 2.
Proof.
  eexists. split; [reflexivity|].
  destruct (parsePdr_counts_are_consistent (λ _, "") Z.add (λ _, true) (λ _ _, None)
              (λ _, inr Sample.pdr) "a.PDR" "^(.*)$" "pdr" _ eq_refl)
    as (loaded & Hload & Hgranules & _ & Hfiles & _).
  injection Hload as <-. split; [exact Hgranules | exact Hfiles].
Defined.
